(** * Didi15min: the 15-minute futures scanner of [main.py]

    A shallow embedding of the indicator functions, the signal rule, the
    per-cycle loop and the module start-up of [main.py], and the properties
    stated about them.

    Numbers.  The program computes with pandas/NumPy [float64].  Rounding is
    not modelled: a finite value is an exact rational, and the special values
    of IEEE arithmetic that the program can reach (NaN, which pandas also uses
    for "missing", and the two infinities produced by a division by zero) are
    kept, with the IEEE rules for arithmetic and for comparisons.  Zero is
    unsigned and behaves as +0.0.

    Rolling aggregations.  pandas computes a rolling sum, mean and deviation
    incrementally: the value that enters the window is added and the one that
    leaves is removed.  In [float64] this leaves a rounding residue of values
    that have left the window, which matters where the exact result is zero:
    over a window of zeros the program can hold a sum of about 1e-15 of
    either sign, and over a flat window a deviation of about 1e-6.  The model
    has the exact value of each window.  The properties below are therefore
    those that relate the computed values to one another and to the decision
    taken from them, and those of missing values, which do not depend on the
    residue; none of them needs a rolling sum or deviation ([agg_sum],
    [agg_std]) to be exactly zero after other values have left the window, or
    a rolling sum to keep the sign of its terms. *)

From Stdlib Require Import QArith Qabs Qminmax Qround Lqa ZArith Lia Bool.
From stdpp Require Import base decidable option list strings gmap.

Open Scope Q_scope.
Open Scope nat_scope.

(** ** Values of type float64 *)

Module F64.

Inductive float64 : Type :=
  | NaN
  | PInf
  | NInf
  | Fin (q : Q).

Definition is_nan (x : float64) : bool :=
  match x with NaN => true | _ => false end.

Definition is_fin (x : float64) : bool :=
  match x with Fin _ => true | _ => false end.

(** Equality up to the representation of a rational. *)
Definition feq (x y : float64) : Prop :=
  match x, y with
  | NaN, NaN => True
  | PInf, PInf => True
  | NInf, NInf => True
  | Fin a, Fin b => (a == b)%Q
  | _, _ => False
  end.

Definition Qltb (a b : Q) : bool := negb (Qle_bool b a).
Definition Qis0 (a : Q) : bool := Qeq_bool a 0.

Definition fneg (x : float64) : float64 :=
  match x with
  | NaN => NaN
  | PInf => NInf
  | NInf => PInf
  | Fin a => Fin (Qred (- a))
  end.

Definition fabs (x : float64) : float64 :=
  match x with
  | NaN => NaN
  | PInf | NInf => PInf
  | Fin a => Fin (Qred (Qabs a))
  end.

Definition fadd (x y : float64) : float64 :=
  match x, y with
  | NaN, _ | _, NaN => NaN
  | PInf, NInf | NInf, PInf => NaN
  | PInf, _ | _, PInf => PInf
  | NInf, _ | _, NInf => NInf
  | Fin a, Fin b => Fin (Qred (a + b))
  end.

Definition fsub (x y : float64) : float64 := fadd x (fneg y).

(** Sign of an infinity times the sign of a finite factor. *)
Definition inf_signed (positive : bool) : float64 :=
  if positive then PInf else NInf.

Definition fmul (x y : float64) : float64 :=
  match x, y with
  | NaN, _ | _, NaN => NaN
  | PInf, PInf | NInf, NInf => PInf
  | PInf, NInf | NInf, PInf => NInf
  | PInf, Fin b | Fin b, PInf =>
      if Qis0 b then NaN else inf_signed (Qltb 0 b)
  | NInf, Fin b | Fin b, NInf =>
      if Qis0 b then NaN else inf_signed (Qltb b 0)
  | Fin a, Fin b => Fin (Qred (a * b))
  end.

(** NumPy division: a zero divisor raises nothing, it gives an infinity of
    the sign of the dividend, or NaN for 0/0. *)
Definition fdiv (x y : float64) : float64 :=
  match x, y with
  | NaN, _ | _, NaN => NaN
  | (PInf | NInf), (PInf | NInf) => NaN
  | PInf, Fin b => inf_signed (Qle_bool 0 b)
  | NInf, Fin b => inf_signed (Qltb b 0)
  | Fin _, (PInf | NInf) => Fin 0
  | Fin a, Fin b =>
      if Qis0 b then
        (if Qis0 a then NaN else inf_signed (Qltb 0 a))
      else Fin (Qred (a / b))
  end.

(** Comparisons: every comparison with NaN is false. *)
Definition flt (x y : float64) : bool :=
  match x, y with
  | NaN, _ | _, NaN => false
  | _, NInf => false
  | NInf, _ => true
  | PInf, _ => false
  | _, PInf => true
  | Fin a, Fin b => Qltb a b
  end.

Definition fgt (x y : float64) : bool := flt y x.

Definition fle (x y : float64) : bool :=
  match x, y with
  | NaN, _ | _, NaN => false
  | NInf, _ => true
  | _, PInf => true
  | _, NInf => false
  | PInf, _ => false
  | Fin a, Fin b => Qle_bool a b
  end.

Definition fge (x y : float64) : bool := fle y x.

(** The square root of a fraction [n/d] in lowest terms, as
    [sqrt (n d) / d] rounded down to a multiple of [1 / (d 10^9)]; it stands
    for the correctly rounded square root of the machine, and like it is zero
    only at zero. *)
Definition sqrt_scale : Z := 1000000000.

Definition Qsqrt (q : Q) : Q :=
  let r := Qred q in
  Qred (Qmake (Z.sqrt (Qnum r * Zpos (Qden r) * (sqrt_scale * sqrt_scale)))
              (Qden r * Z.to_pos sqrt_scale)).

End F64.
Export F64.

Declare Scope f64_scope.
Delimit Scope f64_scope with F.
Bind Scope f64_scope with float64.
Infix "+" := fadd : f64_scope.
Infix "-" := fsub : f64_scope.
Infix "*" := fmul : f64_scope.
Infix "/" := fdiv : f64_scope.
Infix "<?" := flt : f64_scope.
Infix ">?" := fgt : f64_scope.
Infix "<=?" := fle : f64_scope.
Infix ">=?" := fge : f64_scope.
Infix "=f=" := feq (at level 70, no associativity).

(** A Python literal such as [100], [2] or [0.015]. *)
Definition lit (q : Q) : float64 := Fin (Qred q).

(** ** pandas Series and the operations the program uses *)

Module Pandas.

Abbreviation Series := (list float64).

(** [s.shift()]: every value moves one place down, the first place is
    missing, the length is unchanged. *)
Definition shift (s : Series) : Series := take (length s) (NaN :: s).

(** Element-wise arithmetic of two Series on the same index. *)
Definition sadd (a b : Series) : Series := zip_with fadd a b.
Definition ssub (a b : Series) : Series := zip_with fsub a b.
Definition sdiv (a b : Series) : Series := zip_with fdiv a b.
Definition sabs (a : Series) : Series := fabs <$> a.
Definition sneg (a : Series) : Series := fneg <$> a.
Definition smul_l (k : float64) (a : Series) : Series := fmul k <$> a.

(** [s.diff()] is [s - s.shift()]. *)
Definition diff (s : Series) : Series := ssub s (shift s).

(** [s.where(cond, other)]: keeps the value where [cond] holds. *)
Definition where_ (s : Series) (cond : list bool) (other : float64) : Series :=
  zip_with (fun x (c : bool) => if c then x else other) s cond.

(** [s.fillna(v)]. *)
Definition fillna (v : float64) (s : Series) : Series :=
  (fun x => if is_nan x then v else x) <$> s.

(** The maximum of a row of a frame, [DataFrame.max(axis=1)]: missing values
    are skipped ([skipna=True] is the default), and a row of missing values
    only is missing. *)
Definition max_skipna2 (x y : float64) : float64 :=
  match x, y with
  | NaN, _ => y
  | _, NaN => x
  | _, _ => if flt x y then y else x
  end.

Definition row_max (row : list float64) : float64 := foldr max_skipna2 NaN row.

(** [pd.concat([a, b, c], axis=1).max(axis=1)] for three Series on one index. *)
Definition concat3_max (a b c : Series) : Series :=
  zip_with (fun x yz => row_max [x; yz.1; yz.2]) a (zip b c).

(** *** Rolling windows

    [s.rolling(p)] has [min_periods = p].  The window at position [i] holds
    the values at positions [i-p+1 .. i] that exist.  Infinite values are
    turned into missing ones before any aggregation (pandas' [_prep_values]),
    the observations of a window are its values that are not missing, and a
    window with fewer than [min_periods] observations gives a missing
    result.  The aggregate of a window is its exact value; the residue that
    pandas' incremental computation keeps in [float64] of values that have
    left the window is not modelled. *)
Definition window (p : nat) (s : Series) (i : nat) : list float64 :=
  drop (S i - p) (take (S i) s).

Definition observation (x : float64) : option Q :=
  match x with Fin q => Some q | _ => None end.

Definition observations (w : list float64) : list Q := omap observation w.

Definition Qsum (l : list Q) : Q := foldr Qplus 0%Q l.

Definition Qmean (l : list Q) : Q := (Qsum l / inject_Z (Z.of_nat (length l)))%Q.

(** Sum of squared deviations from the mean. *)
Definition Qssqdm (l : list Q) : Q :=
  Qsum ((fun x => ((x - Qmean l) * (x - Qmean l))%Q) <$> l).

Definition agg_mean (o : list Q) : float64 :=
  match o with
  | [] => NaN
  | _ => Fin (Qred (Qmean o))
  end.

Definition agg_sum (o : list Q) : float64 := Fin (Qred (Qsum o)).

(** Sample standard deviation ([ddof = 1]). *)
Definition agg_std (o : list Q) : float64 :=
  if decide (1 < length o)%nat then
    Fin (Qsqrt (Qssqdm o / inject_Z (Z.of_nat (length o - 1))))
  else NaN.

Definition rolling_at (agg : list Q -> float64) (p : nat) (s : Series)
    (i : nat) : float64 :=
  let o := observations (window p s i) in
  if decide (p <= length o)%nat then agg o else NaN.

Definition rolling (agg : list Q -> float64) (p : nat) (s : Series) : Series :=
  imap (fun i _ => rolling_at agg p s i) s.

Definition rolling_mean := rolling agg_mean.
Definition rolling_sum := rolling agg_sum.
Definition rolling_std := rolling agg_std.

End Pandas.
Export Pandas.

(** ** Exceptions *)

Inductive exn : Type :=
  | NameError (name : string)
  | IndexError
  | ValueError
  | ConnectionError
  | HTTPError (status : nat).

Inductive result (A : Type) : Type :=
  | Ok (a : A)
  | Raise (e : exn).
Arguments Ok {A} a.
Arguments Raise {A} e.

Global Instance result_ret : MRet result := fun A a => Ok a.
Global Instance result_bind : MBind result := fun A B f m =>
  match m with
  | Ok a => f a
  | Raise e => Raise e
  end.

(** [s.iloc[k]], with Python's negative positions; a position outside the
    Series raises [IndexError]. *)
Definition iloc (s : Series) (k : Z) : result float64 :=
  let n := Z.of_nat (length s) in
  let j := if (k <? 0)%Z then (n + k)%Z else k in
  if ((0 <=? j) && (j <? n))%Z
  then match s !! Z.to_nat j with Some x => Ok x | None => Raise IndexError end
  else Raise IndexError.

(** ** Configuration *)

Record Config : Type := {
  POLL_SECONDS : nat;
  KLINES_LIMIT : nat;
  BOLLINGER_WIDTH_MIN_PCT : float64;
  ADX_MIN : float64;
  ADX_ACCEL_THRESHOLD : float64
}.

(** The values used when the environment sets none. *)
Definition default_config : Config := {|
  POLL_SECONDS := 120;
  KLINES_LIMIT := 200;
  BOLLINGER_WIDTH_MIN_PCT := lit (15 # 1000);
  ADX_MIN := lit 15;
  ADX_ACCEL_THRESHOLD := lit (5 # 100)
|}.

Definition BOLLINGER_PERIOD : nat := 8.
Definition BOLLINGER_STD : float64 := lit 2.
Definition ADX_PERIOD : nat := 8.

Definition FIXED_SYMBOLS : list string :=
  ["BCHUSDT"; "BNBUSDT"; "CHZUSDT"; "DOGEUSDT"; "ENAUSDT";
   "ETHUSDT"; "JASMYUSDT"; "SOLUSDT"; "UNIUSDT"; "XMRUSDT"; "XRPUSDT"]%string.

(** ** Market data *)

(** One row of the frame built in [fetch_klines], after the numeric columns
    went through [pd.to_numeric(errors="coerce")]: a cell that is not a number
    is NaN.  The open time is in milliseconds, as [pd.to_datetime] has
    accepted it.  The other columns of the provider's table are not read by
    the program. *)
Record candle : Type := {
  open_time : Z;
  open : float64;
  high : float64;
  low : float64;
  close : float64;
  volume : float64
}.

Abbreviation DataFrame := (list candle).

Definition col (f : candle -> float64) (df : DataFrame) : Series := f <$> df.

(** What the request of [fetch_klines] and the construction of the frame come
    to.  [NoConnection]: [requests.get] raises.  [Status]: the status is an
    error and [raise_for_status] raises.  [BadBody]: the construction of the
    frame raises, because the body is no JSON, has rows that are not of
    twelve columns, or has an open time that [pd.to_datetime] refuses.
    [Table rows]: the frame is built and has these rows; a body without rows,
    such as a JSON object, gives the frame without rows, [Table []]. *)
Inductive response : Type :=
  | NoConnection
  | Status (code : nat)
  | BadBody
  | Table (rows : list candle).

(** The provider: symbol, interval, limit. *)
Definition provider := string -> string -> nat -> response.

(** [df.iloc[:-1]] *)
Definition iloc_to_last (df : DataFrame) : DataFrame := take (length df - 1) df.

Definition fetch_klines (http : provider) (symbol : string)
    (interval : string) (limit : nat) : result DataFrame :=
  match http symbol interval limit with
  | NoConnection => Raise ConnectionError
  | Status code => Raise (HTTPError code)
  | BadBody => Raise ValueError
  | Table rows => Ok (iloc_to_last rows)
  end.

(** ** Indicators *)

Definition sma (s : Series) (p : nat) : Series := rolling_mean p s.

Definition true_range (df : DataFrame) : Series :=
  concat3_max
    (ssub (col high df) (col low df))
    (sabs (ssub (col high df) (shift (col close df))))
    (sabs (ssub (col low df) (shift (col close df)))).

Definition atr (df : DataFrame) (p : nat) : Series :=
  rolling_mean p (true_range df).

Definition bollinger_bands (series : Series) : Series * Series * Series :=
  let ma := rolling_mean BOLLINGER_PERIOD series in
  let std := rolling_std BOLLINGER_PERIOD series in
  let upper := sadd ma (smul_l BOLLINGER_STD std) in
  let lower := ssub ma (smul_l BOLLINGER_STD std) in
  let width := sdiv (ssub upper lower) ma in
  (upper, lower, width).

(** [(a > b) & (a > 0)] on two Series. *)
Definition gt_and_pos (a b : Series) : list bool :=
  zip_with (fun x y => fgt x y && fgt x (lit 0)) a b.

Definition adx (df : DataFrame) : Series :=
  let tr := true_range df in
  let atr_v := rolling_mean ADX_PERIOD tr in
  let up := diff (col high df) in
  let down := sneg (diff (col low df)) in
  let plus := where_ up (gt_and_pos up down) (lit 0) in
  let minus := where_ down (gt_and_pos down up) (lit 0) in
  let pdi := sdiv (smul_l (lit 100) (rolling_sum ADX_PERIOD plus)) atr_v in
  let mdi := sdiv (smul_l (lit 100) (rolling_sum ADX_PERIOD minus)) atr_v in
  let dx := sdiv (smul_l (lit 100) (sabs (ssub pdi mdi))) (sadd pdi mdi) in
  fillna (lit 0) (rolling_mean ADX_PERIOD dx).

(** The Series that [adx] binds on its way, under the names of the program:
    [plus], [minus], [pdi], [mdi] and [dx]. *)
Definition adx_plus (df : DataFrame) : Series :=
  let up := diff (col high df) in
  let down := sneg (diff (col low df)) in
  where_ up (gt_and_pos up down) (lit 0).

Definition adx_minus (df : DataFrame) : Series :=
  let up := diff (col high df) in
  let down := sneg (diff (col low df)) in
  where_ down (gt_and_pos down up) (lit 0).

Definition adx_pdi (df : DataFrame) : Series :=
  sdiv (smul_l (lit 100) (rolling_sum ADX_PERIOD (adx_plus df)))
       (rolling_mean ADX_PERIOD (true_range df)).

Definition adx_mdi (df : DataFrame) : Series :=
  sdiv (smul_l (lit 100) (rolling_sum ADX_PERIOD (adx_minus df)))
       (rolling_mean ADX_PERIOD (true_range df)).

Definition adx_dx (df : DataFrame) : Series :=
  sdiv (smul_l (lit 100) (sabs (ssub (adx_pdi df) (adx_mdi df))))
       (sadd (adx_pdi df) (adx_mdi df)).

(** ** Signal logic *)

Inductive side : Type := LONG | SHORT.

(** The chained comparison [a.iloc[k] > b.iloc[k] > c.iloc[k]]. *)
Definition chain_gt (a b c : Series) (k : Z) : result bool :=
  x ← iloc a k; y ← iloc b k;
  if fgt x y then z ← iloc c k; mret (fgt y z) else mret false.

Definition chain_lt (a b c : Series) (k : Z) : result bool :=
  x ← iloc a k; y ← iloc b k;
  if flt x y then z ← iloc c k; mret (flt y z) else mret false.

Definition triple_sma_cross (df : DataFrame) : result (option side) :=
  let c := col close df in
  let s3 := sma c 3 in
  let s8 := sma c 8 in
  let s20 := sma c 20 in
  if decide (length df < 3)%nat then mret None else
  up_now ← chain_gt s3 s8 s20 (-1);
  up_fires ← (if up_now : bool
              then up_before ← chain_gt s3 s8 s20 (-2); mret (negb up_before)
              else mret false);
  if up_fires : bool then mret (Some LONG) else
  down_now ← chain_lt s3 s8 s20 (-1);
  down_fires ← (if down_now : bool
                then down_before ← chain_lt s3 s8 s20 (-2); mret (negb down_before)
                else mret false);
  if down_fires : bool then mret (Some SHORT) else mret None.

(** The dictionary returned by [analyze_symbol]. *)
Record Signal : Type := {
  sig_symbol : string;
  sig_side : side;
  sig_price : float64;
  sig_adx : float64
}.

(** The body of [analyze_symbol] once the frame is there. *)
Definition analyze_frame (cfg : Config) (symbol : string) (df : DataFrame)
    : result (option Signal) :=
  let '(upper, lower, width) := bollinger_bands (col close df) in
  adx_v ← iloc (adx df) (-1);
  cross ← triple_sma_cross df;
  w ← iloc width (-1);
  if flt w (BOLLINGER_WIDTH_MIN_PCT cfg) then mret None else
  if flt adx_v (ADX_MIN cfg) then mret None else
  match cross with
  | None => mret None
  | Some sd =>
      price ← iloc (col close df) (-1);
      mret (Some {| sig_symbol := symbol; sig_side := sd;
                    sig_price := price; sig_adx := adx_v |})
  end.

Definition analyze_symbol (cfg : Config) (http : provider) (symbol : string)
    : result (option Signal) :=
  df ← fetch_klines http symbol "15m" 200;
  analyze_frame cfg symbol df.

(** ** Notification, log and the main loop *)

Inductive message : Type :=
  | Started                (* "Scanner iniciado" *)
  | Stopped                (* "Scanner finalizado" *)
  | Alert (s : Signal).    (* "SINAL 15m" with the fields of the signal *)

Inductive log_line : Type :=
  | SendFailed                  (* error: "Falha ao enviar Telegram" *)
  | AlertSent (symbol : string) (* info: "Alerta enviado" *)
  | CycleError (e : exn)        (* exception: "Erro no ciclo principal" *)
  | ShutdownRequested           (* info: "Encerramento solicitado." *)
  | Finished.                   (* info: "Scanner encerrado com sucesso." *)

(** What the program does to the outside, in order. *)
Inductive event : Type :=
  | Post (m : message)
  | Log (l : log_line)
  | Sleep (seconds : nat).

(** The notifier: whether the POST of a message succeeds. *)
Definition notifier := message -> bool.

(** [send_telegram]: one POST; a failure is logged and goes no further. *)
Definition send_telegram (telegram : notifier) (m : message) : list event :=
  Post m :: (if telegram m then [] else [Log SendFailed]).

(** What the body of the [for] loop does with the result of
    [analyze_symbol]. *)
Definition on_result (telegram : notifier) (res : option Signal) : list event :=
  match res with
  | Some sig => send_telegram telegram (Alert sig)
                ++ [Log (AlertSent (sig_symbol sig))]
  | None => []
  end.

(** The [for] loop over the symbols: its events, and the exception that left
    it if one did. *)
Fixpoint for_symbols (cfg : Config) (http : provider) (telegram : notifier)
    (symbols : list string) : list event * option exn :=
  match symbols with
  | [] => ([], None)
  | symbol :: rest =>
      match analyze_symbol cfg http symbol with
      | Raise e => ([], Some e)
      | Ok res =>
          let '(out, raised) := for_symbols cfg http telegram rest in
          (on_result telegram res ++ out, raised)
      end
  end.

(** The [try] statement around the loop: an exception that leaves the loop
    is logged. *)
Definition try_block (cfg : Config) (http : provider) (telegram : notifier)
    (symbols : list string) : list event :=
  let '(out, raised) := for_symbols cfg http telegram symbols in
  out ++ match raised with
         | Some e => [Log (CycleError e)]
         | None => []
         end.

(** *** [main] step by step

    Where [main] is: before the start message, in the warm-up sleep, at the
    test of the [while], in the [for] loop with the symbols still to come, in
    the sleep between two cycles, or returned. *)
Inductive phase : Type :=
  | AtStart
  | WarmUp
  | AtCheck
  | InCycle (pending : list string)
  | Sleeping
  | Returned.

Record state : Type := {
  pc : phase;
  SHUTDOWN : bool;
  trace : list event
}.

Definition initial_state : state :=
  {| pc := AtStart; SHUTDOWN := false; trace := [] |}.

(** One step of [main] from a phase, with the flag as it is read there: the
    next phase and the events of the step. *)
Definition main_next (cfg : Config) (http : provider) (telegram : notifier)
    (ph : phase) (flag : bool) : phase * list event :=
  match ph with
  | AtStart => (WarmUp, send_telegram telegram Started)
  | WarmUp => (AtCheck, [Sleep 15])
  | AtCheck =>
      if flag then (Returned, [Log Finished]) else (InCycle FIXED_SYMBOLS, [])
  | InCycle [] => (Sleeping, [])
  | InCycle (symbol :: rest) =>
      match analyze_symbol cfg http symbol with
      | Raise e => (Sleeping, [Log (CycleError e)])
      | Ok res => (InCycle rest, on_result telegram res)
      end
  | Sleeping => (AtCheck, [Sleep (POLL_SECONDS cfg)])
  | Returned => (Returned, [])
  end.

Definition main_step (cfg : Config) (http : provider) (telegram : notifier)
    (st : state) : state :=
  let '(ph, out) := main_next cfg http telegram (pc st) (SHUTDOWN st) in
  {| pc := ph; SHUTDOWN := SHUTDOWN st; trace := trace st ++ out |}.

(** The handler of SIGTERM and SIGINT.  Python runs it in the main thread
    when the signal arrives; a sleep or a request that the signal interrupts
    goes on when the handler returns, and this handler always returns
    ([send_telegram] lets no exception out).  So the handler sets the flag,
    posts and logs, and leaves [main] where it is. *)
Definition shutdown_handler (telegram : notifier) (st : state) : state :=
  {| pc := pc st;
     SHUTDOWN := true;
     trace := trace st ++ send_telegram telegram Stopped
                       ++ [Log ShutdownRequested] |}.

(** A step of the process: a step of [main] or the delivery of a signal,
    with whatever the provider and the notifier answer at that moment. *)
Inductive step (cfg : Config) : state -> state -> Prop :=
  | step_main (http : provider) (telegram : notifier) (st : state) :
      pc st <> Returned -> step cfg st (main_step cfg http telegram st)
  | step_signal (telegram : notifier) (st : state) :
      pc st <> Returned -> step cfg st (shutdown_handler telegram st).

(** ** The statements of the module, top to bottom

    Running [main.py] executes its top-level statements in order.  A
    statement reads names and binds names; reading a name that is neither
    bound in the module nor a builtin raises [NameError].  A [def] binds its
    name and reads nothing when it is executed.  The packages that the module
    imports are taken to be installed. *)

(** What a statement does besides binding names. *)
Inductive effect : Type :=
  | NoEffect
  | ConfigCheck      (* the test of TELEGRAM_TOKEN and TELEGRAM_CHAT_ID *)
  | InstallHandlers  (* signal.signal(SIGTERM / SIGINT, shutdown_handler) *)
  | CallMain.        (* if __name__ == "__main__": main() *)

Record top_stmt : Type := {
  line : nat;
  reads : list string;
  binds : list string;
  does : effect
}.

Definition stmt_import (ln : nat) (name : string) : top_stmt :=
  {| line := ln; reads := []; binds := [name]; does := NoEffect |}.

Definition stmt_assign (ln : nat) (target : string) (names : list string)
    : top_stmt :=
  {| line := ln; reads := names; binds := [target]; does := NoEffect |}.

Definition stmt_expr (ln : nat) (names : list string) (e : effect) : top_stmt :=
  {| line := ln; reads := names; binds := []; does := e |}.

Definition stmt_def (ln : nat) (name : string) : top_stmt :=
  {| line := ln; reads := []; binds := [name]; does := NoEffect |}.

(** The builtin functions and constants of Python. *)
Definition builtins : gset string :=
  list_to_set
    ["abs"; "aiter"; "all"; "anext"; "any"; "ascii"; "bin"; "bool";
     "breakpoint"; "bytearray"; "bytes"; "callable"; "chr"; "classmethod";
     "compile"; "complex"; "delattr"; "dict"; "dir"; "divmod"; "enumerate";
     "eval"; "exec"; "filter"; "float"; "format"; "frozenset"; "getattr";
     "globals"; "hasattr"; "hash"; "help"; "hex"; "id"; "input"; "int";
     "isinstance"; "issubclass"; "iter"; "len"; "list"; "locals"; "map";
     "max"; "memoryview"; "min"; "next"; "object"; "oct"; "open"; "ord";
     "pow"; "print"; "property"; "range"; "repr"; "reversed"; "round";
     "set"; "setattr"; "slice"; "sorted"; "staticmethod"; "str"; "sum";
     "super"; "tuple"; "type"; "vars"; "zip"; "__import__";
     "True"; "False"; "None"; "Exception"; "NameError"; "ValueError";
     "IndexError"]%string.

(** The names a module has before its first statement. *)
Definition module_names : gset string :=
  list_to_set ["__name__"; "__doc__"; "__file__"; "__builtins__"]%string.

(** The top-level statements of [main.py], with their lines. *)
Definition main_py : list top_stmt :=
  [ stmt_import 16 "os"; stmt_import 17 "sys"; stmt_import 18 "time";
    stmt_import 19 "signal"; stmt_import 20 "logging";
    stmt_import 21 "requests";
    stmt_import 22 "np";        (* import numpy as np *)
    stmt_import 23 "pd";        (* import pandas as pd *)
    stmt_import 24 "datetime";  (* from datetime import datetime *)
    stmt_import 25 "pytz";
    stmt_expr 27 ["load_dotenv"] NoEffect;
    stmt_assign 33 "TELEGRAM_TOKEN" ["os"];
    stmt_assign 34 "TELEGRAM_CHAT_ID" ["os"];
    stmt_assign 36 "POLL_SECONDS" ["int"; "os"];
    stmt_assign 37 "KLINES_LIMIT" ["int"; "os"];
    stmt_assign 39 "BINANCE_FAPI" [];
    stmt_assign 45 "BOLLINGER_PERIOD" [];
    stmt_assign 46 "BOLLINGER_STD" [];
    stmt_assign 47 "ADX_PERIOD" [];
    stmt_assign 49 "BOLLINGER_WIDTH_MIN_PCT" ["float"; "os"];
    stmt_assign 50 "ADX_MIN" ["float"; "os"];
    stmt_assign 51 "ADX_ACCEL_THRESHOLD" ["float"; "os"];
    stmt_assign 57 "FIXED_SYMBOLS" [];
    stmt_expr 66 ["logging"; "sys"] NoEffect;
    stmt_assign 72 "LOGGER" ["logging"];
    stmt_expr 74 ["TELEGRAM_TOKEN"; "TELEGRAM_CHAT_ID"] ConfigCheck;
    stmt_assign 78 "TZ_SP" ["pytz"];
    stmt_def 84 "now_sp"; stmt_def 87 "now_sp_str";
    stmt_def 90 "send_telegram"; stmt_def 106 "fetch_klines";
    stmt_def 127 "sma"; stmt_def 129 "true_range"; stmt_def 136 "atr";
    stmt_def 139 "bollinger_bands"; stmt_def 147 "adx";
    stmt_def 166 "triple_sma_cross"; stmt_def 177 "analyze_symbol";
    stmt_assign 199 "SHUTDOWN" [];
    stmt_def 201 "shutdown_handler";
    stmt_expr 207 ["signal"; "shutdown_handler"] NoEffect;
    stmt_expr 208 ["signal"; "shutdown_handler"] InstallHandlers;
    stmt_def 214 "main";
    stmt_expr 240 ["__name__"; "main"] CallMain ]%string.

(** The environment variables of the process. *)
Definition environ := string -> option string.

(** A variable that is set to a string that is not empty. *)
Definition configured (env : environ) (name : string) : bool :=
  match env name with
  | Some EmptyString | None => false
  | Some _ => true
  end.

(** How the execution of the module ends: an exception, [sys.exit], the call
    of [main], or the end of the file. *)
Inductive ending : Type :=
  | Raised (e : exn) (at_line : nat)
  | Exited (code : nat)
  | MainCalled
  | EndOfFile.

(** The first name of a list that is not bound. *)
Definition first_unbound (ns : gset string) (names : list string)
    : option string :=
  List.find (fun n => negb (bool_decide (n ∈ ns) || bool_decide (n ∈ builtins)))
            names.

(** Runs the statements; gives the effects reached, in order, and the
    ending. *)
Fixpoint run_module (env : environ) (ns : gset string) (prog : list top_stmt)
    : list effect * ending :=
  match prog with
  | [] => ([], EndOfFile)
  | st :: rest =>
      match first_unbound ns (reads st) with
      | Some n => ([], Raised (NameError n) (line st))
      | None =>
          let continue :=
            let '(reached, e) :=
              run_module env (list_to_set (binds st) ∪ ns) rest in
            (match does st with NoEffect => reached | eff => eff :: reached end,
             e) in
          match does st with
          | ConfigCheck =>
              if configured env "TELEGRAM_TOKEN"
                 && configured env "TELEGRAM_CHAT_ID"
              then continue else ([ConfigCheck], Exited 1)
          | CallMain => ([CallMain], MainCalled)
          | _ => continue
          end
      end
  end.

(** ** The notions of the statements *)

(** The arithmetic mean of a list of numbers, in the arithmetic of the
    program: the sum, left to right, divided by the count. *)
Definition arithmetic_mean (qs : list Q) : float64 :=
  fdiv (Fin (fold_left Qplus qs 0%Q)) (Fin (inject_Z (Z.of_nat (length qs)))).

(** The strict ordering fast > medium > slow of the three averages of the
    close (periods 3, 8 and 20) at a position; false where an average is
    missing. *)
Definition ordered_up (df : DataFrame) (i : nat) : bool :=
  match sma (col close df) 3 !! i, sma (col close df) 8 !! i,
        sma (col close df) 20 !! i with
  | Some f, Some m, Some s => fgt f m && fgt m s
  | _, _, _ => false
  end.

(** The reversed ordering fast < medium < slow. *)
Definition ordered_down (df : DataFrame) (i : nat) : bool :=
  match sma (col close df) 3 !! i, sma (col close df) 8 !! i,
        sma (col close df) 20 !! i with
  | Some f, Some m, Some s => flt f m && flt m s
  | _, _, _ => false
  end.

(** The midline of the Bollinger bands. *)
Definition midline (series : Series) : Series :=
  rolling_mean BOLLINGER_PERIOD series.

(** The width at one place, from the midline and the deviation there. *)
Definition width_at (ma sd : float64) : float64 :=
  fdiv (fsub (fadd ma (fmul BOLLINGER_STD sd)) (fsub ma (fmul BOLLINGER_STD sd))) ma.

(** No bar has its high below its low (a missing high or low is accepted). *)
Definition high_not_below_low (df : DataFrame) : Prop :=
  Forall (fun c => flt (high c) (low c) = false) df.

(** A value that is not below zero: a number that is not negative, a
    missing value or plus infinity. *)
Definition not_below_zero (x : float64) : Prop :=
  match x with
  | Fin q => (0 <= q)%Q
  | NInf => False
  | NaN | PInf => True
  end.

(** A missing value or a number that is not negative. *)
Definition nan_or_nonneg (x : float64) : Prop :=
  match x with
  | Fin q => (0 <= q)%Q
  | NaN => True
  | PInf | NInf => False
  end.

(** [dx] at one place, from the two rolling sums and the average true range
    there. *)
Definition dx_at (sp sm a : float64) : float64 :=
  let pdi := fdiv (fmul (lit 100) sp) a in
  let mdi := fdiv (fmul (lit 100) sm) a in
  fdiv (fmul (lit 100) (fabs (fsub pdi mdi))) (fadd pdi mdi).

(** The flag is set and [main] is between two cycles or has returned. *)
Definition stopping (st : state) : Prop :=
  SHUTDOWN st = true /\
  (pc st = Sleeping \/ pc st = AtCheck \/ pc st = Returned).

(** ** Inputs used as examples *)

(** A bar with high 12, low 9 and close 10. *)
Definition one_bar : candle :=
  {| open_time := 0; open := Fin 11; high := Fin 12; low := Fin 9;
     close := Fin 10; volume := Fin 1 |}.

(** A bar from the previous close and its own close: it opens at the previous
    close, its high is one above the larger of the two and its low one below
    the smaller. *)
Definition bar (prev c : Z) (t : Z) : candle :=
  {| open_time := t;
     open := Fin (inject_Z prev);
     high := Fin (inject_Z (Z.max prev c + 1));
     low := Fin (inject_Z (Z.min prev c - 1));
     close := Fin (inject_Z c);
     volume := Fin 1 |}.

Fixpoint bars (prev : Z) (closes : list Z) (t : Z) : list candle :=
  match closes with
  | [] => []
  | c :: rest => bar prev c t :: bars c rest (t + 1)
  end.

(** Twenty closes falling by one, then six rising by three: the three
    averages line up fast > medium > slow at the last bar and not before. *)
Definition rally_closes : list Z :=
  [120; 119; 118; 117; 116; 115; 114; 113; 112; 111;
   110; 109; 108; 107; 106; 105; 104; 103; 102; 101;
   104; 107; 110; 113; 116; 119]%Z.

Definition rally_frame : DataFrame := bars 121 rally_closes 0.

(** The bar still open when the table is fetched. *)
Definition open_bar : candle := bar 119 120 26.

(** A provider that answers every request with the rally and the open bar. *)
Definition rally_provider : provider :=
  fun _ _ _ => Table (rally_frame ++ [open_bar]).

(** The signal that the rally gives. *)
Definition rally_signal (symbol : string) : Signal :=
  {| sig_symbol := symbol; sig_side := LONG; sig_price := Fin 119;
     sig_adx := Fin (24840385 # 415701) |}.

(** The rally moved down by 109: the last eight closes now add up to zero. *)
Definition zero_midline_closes : list Z :=
  [11; 10; 9; 8; 7; 6; 5; 4; 3; 2;
   1; 0; -1; -2; -3; -4; -5; -6; -7; -8;
   -5; -2; 1; 4; 7; 10]%Z.

Definition zero_midline_frame : DataFrame := bars 12 zero_midline_closes 0.

(** Eight bars that close at zero. *)
Definition flat_zero_frame : DataFrame := bars 0 [0; 0; 0; 0; 0; 0; 0; 0]%Z 0.

(** A provider that fails for the first symbol of the list and answers with
    the rally for every other. *)
Definition first_fails_provider : provider :=
  fun symbol _ _ =>
    if String.eqb symbol "BCHUSDT" then NoConnection
    else Table (rally_frame ++ [open_bar]).

(** A provider that fails for the third symbol of the list and answers with
    the rally for every other. *)
Definition third_fails_provider : provider :=
  fun symbol _ _ =>
    if String.eqb symbol "CHZUSDT" then Status 500
    else Table (rally_frame ++ [open_bar]).

(** A notifier that always succeeds. *)
Definition telegram_up : notifier := fun _ => true.

(** Asleep after the first cycle, no signal so far. *)
Definition asleep_state : state :=
  {| pc := Sleeping; SHUTDOWN := false;
     trace := [Post Started; Sleep 15] |}.

(** [main.py] with [load_dotenv] bound by an import before line 27. *)
Definition main_py_with_dotenv : list top_stmt :=
  stmt_import 26 "load_dotenv" :: main_py.

(** An environment with the two variables of the notifier set. *)
Definition env_configured : environ :=
  fun name =>
    if String.eqb name "TELEGRAM_TOKEN" then Some "token"%string
    else if String.eqb name "TELEGRAM_CHAT_ID" then Some "42"%string
    else None.

(** ** Further notions *)

(** Every bar of the frame has a number as high, low and close. *)
Definition all_numeric (df : DataFrame) : Prop :=
  Forall (fun c => exists h l k : Q,
            high c = Fin h /\ low c = Fin l /\ close c = Fin k) df.

(** A configuration that differs from the default one in everything but the
    two thresholds. *)
Definition other_config : Config := {|
  POLL_SECONDS := 5;
  KLINES_LIMIT := 50;
  BOLLINGER_WIDTH_MIN_PCT := lit (15 # 1000);
  ADX_MIN := lit 15;
  ADX_ACCEL_THRESHOLD := lit 1
|}.

(** A provider that answers with the rally when asked for 200 bars and
    fails for every other limit. *)
Definition only_200_provider : provider :=
  fun _ _ limit =>
    if Nat.eqb limit 200 then Table (rally_frame ++ [open_bar])
    else NoConnection.

(** A step of [main] alone, no signal being delivered. *)
Definition main_only (cfg : Config) (st st' : state) : Prop :=
  exists http telegram, st' = main_step cfg http telegram st.

(** The steps [main] still takes at most before it returns, once the flag is
    set. *)
Definition steps_left (ph : phase) : nat :=
  match ph with
  | AtStart => 3
  | WarmUp => 2
  | AtCheck => 1
  | InCycle pending => length pending + 3
  | Sleeping => 2
  | Returned => 0
  end.

(** The events without the log lines of failed POSTs. *)
Definition is_send_failed (ev : event) : bool :=
  match ev with
  | Log SendFailed => true
  | _ => false
  end.

Definition without_send_failures (evs : list event) : list event :=
  List.filter (fun ev => negb (is_send_failed ev)) evs.

(** The messages posted, in order. *)
Definition posts (evs : list event) : list message :=
  omap (fun ev => match ev with Post m => Some m | _ => None end) evs.

(** The alert an instrument gives rise to, if it has a signal. *)
Definition alert_of (cfg : Config) (http : provider) (symbol : string)
    : option message :=
  match analyze_symbol cfg http symbol with
  | Ok (Some sig) => Some (Alert sig)
  | _ => None
  end.

(** A notifier that always fails. *)
Definition telegram_down : notifier := fun _ => false.

(** In the middle of a cycle, three instruments still to come. *)
Definition mid_cycle_state : state :=
  {| pc := InCycle ["UNIUSDT"; "XMRUSDT"; "XRPUSDT"]%string;
     SHUTDOWN := false;
     trace := [Post Started; Sleep 15] |}.

(** The open times, in milliseconds, that are not negative and that
    [pd.to_datetime(unit="ms")] accepts: their nanoseconds fit a signed
    integer of 64 bits. *)
Definition open_times_accepted (rows : list candle) : Prop :=
  Forall (fun c => (0 <= open_time c <= 9223372036854)%Z) rows.

(** * Properties *)

(** ** Comparisons and equality of values *)

Section Values.

Lemma Qltb_lt (a b : Q) : Qltb a b = true <-> (a < b)%Q.
Proof.
  unfold Qltb. rewrite negb_true_iff. split.
  - intros H. apply Qnot_le_lt. intros Hle.
    apply Qle_bool_iff in Hle. congruence.
  - intros H. destruct (Qle_bool b a) eqn:E; [|reflexivity].
    apply Qle_bool_iff in E. exfalso. apply (Qlt_not_le _ _ H E).
Qed.

Lemma Qltb_ge (a b : Q) : Qltb a b = false <-> (b <= a)%Q.
Proof.
  unfold Qltb. rewrite negb_false_iff. apply Qle_bool_iff.
Qed.

Lemma Qis0_true (a : Q) : Qis0 a = true <-> (a == 0)%Q.
Proof. unfold Qis0. apply Qeq_bool_iff. Qed.

Lemma Qis0_false (a : Q) : Qis0 a = false <-> ~ (a == 0)%Q.
Proof.
  rewrite <- Qis0_true. destruct (Qis0 a); split; congruence.
Qed.

Global Instance feq_equiv : Equivalence feq.
Proof.
  split.
  - intros []; simpl; auto. reflexivity.
  - intros [] []; simpl; auto. intros H. symmetry. exact H.
  - intros [] [] []; simpl; auto; try contradiction.
    intros H1 H2. etransitivity; eassumption.
Qed.

Lemma feq_nan_r (x : float64) : x =f= NaN -> x = NaN.
Proof. destruct x; simpl; intros H; try contradiction; reflexivity. Qed.

Lemma flt_feq (x x' y y' : float64) :
  x =f= x' -> y =f= y' -> flt x y = flt x' y'.
Proof.
  destruct x, x', y, y'; simpl; try contradiction; try reflexivity.
  intros Hx Hy. unfold Qltb. f_equal.
  destruct (Qle_bool q1 q) eqn:E1, (Qle_bool q2 q0) eqn:E2; try reflexivity.
  - apply Qle_bool_iff in E1. rewrite Hx, Hy in E1.
    apply Qle_bool_iff in E1. congruence.
  - apply Qle_bool_iff in E2. rewrite <- Hx, <- Hy in E2.
    apply Qle_bool_iff in E2. congruence.
Qed.

(** Without NaN, [>=] is the negation of [<]. *)
Lemma flt_fge (x y : float64) :
  is_nan x = false -> is_nan y = false -> flt x y = negb (fge x y).
Proof.
  unfold fge. destruct x, y; simpl; try discriminate; try reflexivity.
Qed.

Lemma flt_irrefl (x : float64) : flt x x = false.
Proof.
  destruct x; simpl; try reflexivity. apply Qltb_ge. apply Qle_refl.
Qed.

End Values.

(** ** Positions of a Series *)

Section Positions.

Lemma length_shift (s : Series) : length (shift s) = length s.
Proof. unfold shift. rewrite length_take. simpl. lia. Qed.

Lemma lookup_shift_0 (s : Series) : 0 < length s -> shift s !! 0 = Some NaN.
Proof.
  intros H. unfold shift. rewrite lookup_take_lt by lia. reflexivity.
Qed.

Lemma lookup_shift_S (s : Series) (i : nat) :
  S i < length s -> shift s !! S i = s !! i.
Proof.
  intros H. unfold shift. rewrite lookup_take_lt by lia. reflexivity.
Qed.

Lemma length_rolling agg p (s : Series) : length (rolling agg p s) = length s.
Proof. unfold rolling. apply length_imap. Qed.

Lemma lookup_rolling agg p (s : Series) (i : nat) :
  i < length s -> rolling agg p s !! i = Some (rolling_at agg p s i).
Proof.
  intros H. unfold rolling. rewrite list_lookup_imap.
  destruct (lookup_lt_is_Some_2 s i H) as [x ->]. reflexivity.
Qed.

Lemma lookup_rolling_Some agg p (s : Series) (i : nat) (x : float64) :
  rolling agg p s !! i = Some x -> i < length s /\ x = rolling_at agg p s i.
Proof.
  intros H. assert (Hi : i < length s).
  { rewrite <- (length_rolling agg p). eapply lookup_lt_Some; eauto. }
  split; [exact Hi|]. rewrite lookup_rolling in H by exact Hi. congruence.
Qed.

Lemma length_window p (s : Series) (i : nat) :
  i < length s -> length (window p s i) = Nat.min p (S i).
Proof.
  intros H. unfold window. rewrite length_drop, length_take. lia.
Qed.

Lemma lookup_window p (s : Series) (i k : nat) :
  i < length s -> k < Nat.min p (S i) ->
  window p s i !! k = s !! (S i - p + k).
Proof.
  intros H Hk. unfold window. rewrite lookup_drop.
  apply lookup_take_lt. lia.
Qed.

Lemma observations_cons (x : float64) (w : list float64) :
  observations (x :: w) =
  match observation x with
  | Some q => q :: observations w
  | None => observations w
  end.
Proof. reflexivity. Qed.

Lemma length_observations (w : list float64) :
  length (observations w) <= length w.
Proof.
  induction w as [|x w IH]; [reflexivity|].
  rewrite observations_cons. destruct (observation x); simpl; lia.
Qed.

(** A window of numbers only is observed whole. *)
Lemma observations_Fin (qs : list Q) : observations (Fin <$> qs) = qs.
Proof.
  induction qs as [|q qs IH]; [reflexivity|].
  rewrite fmap_cons, observations_cons. simpl. f_equal. exact IH.
Qed.

(** A window with a value that is no number has fewer observations than
    places. *)
Lemma observations_short (w : list float64) :
  (exists k y, w !! k = Some y /\ is_fin y = false) ->
  length (observations w) < length w.
Proof.
  induction w as [|x w IH]; intros (k & y & Hk & Hy).
  - rewrite lookup_nil in Hk. discriminate.
  - rewrite observations_cons. pose proof (length_observations w) as Hle.
    destruct k as [|k].
    + injection Hk as ->. destruct y; try discriminate; simpl; lia.
    + assert (length (observations w) < length w) by (apply IH; eauto).
      destruct (observation x); simpl; lia.
Qed.

Lemma observations_full (w : list float64) :
  length (observations w) = length w -> w = Fin <$> observations w.
Proof.
  induction w as [|x w IH]; [reflexivity|].
  pose proof (length_observations w) as Hle.
  rewrite observations_cons.
  destruct x; cbn [observation length]; intros H; try lia.
  rewrite fmap_cons. f_equal. apply IH. lia.
Qed.

End Positions.

(** ** Simple moving average *)

Section SMA.

Lemma fold_left_Qplus (qs : list Q) (a : Q) :
  (fold_left Qplus qs a == a + Qsum qs)%Q.
Proof.
  revert a. induction qs as [|q qs IH]; intros a; simpl.
  - ring.
  - rewrite IH. unfold Qsum. simpl. ring.
Qed.

Lemma inject_nat_0 (n : nat) :
  Qis0 (inject_Z (Z.of_nat n)) = true <-> n = 0.
Proof.
  rewrite Qis0_true. unfold Qeq. simpl. lia.
Qed.

Lemma agg_mean_arithmetic (qs : list Q) : agg_mean qs =f= arithmetic_mean qs.
Proof.
  unfold arithmetic_mean, agg_mean. destruct qs as [|q qs]; [reflexivity|].
  cbn [fdiv].
  destruct (Qis0 (inject_Z (Z.of_nat (length (q :: qs))))) eqn:E.
  - apply inject_nat_0 in E. discriminate.
  - cbn [feq]. rewrite !Qred_correct. unfold Qmean.
    rewrite fold_left_Qplus. apply Qis0_false in E.
    field. exact E.
Qed.

(** The window of a position with enough history is the [p] values that end
    there. *)
Lemma window_trailing (s : Series) (p i : nat) (w : list float64) :
  i < length s -> p <= i + 1 -> length w = p ->
  (forall k, k < p -> s !! (i + 1 - p + k) = w !! k) ->
  window p s i = w.
Proof.
  intros Hi Hp Hlen Hw. apply list_eq. intros k.
  destruct (decide (k < p)) as [Hk|Hk].
  - rewrite lookup_window by lia. rewrite <- Hw by exact Hk.
    f_equal. lia.
  - rewrite !lookup_ge_None_2; [reflexivity| lia |].
    rewrite length_window by exact Hi. lia.
Qed.

(** C10.  [sma(values, p)] at a position [i] is missing when [i < p - 1];
    from [p - 1] on it is the arithmetic mean of the [p] values that end at
    [i] when these are numbers, and it is missing when one of them is not. *)
Theorem sma_trailing_mean (s : Series) (p i : nat) :
  i < length s ->
  exists x, sma s p !! i = Some x /\
    (i + 1 < p -> x = NaN) /\
    (p <= i + 1 ->
       (forall qs : list Q, length qs = p ->
          (forall k, k < p -> s !! (i + 1 - p + k) = Fin <$> (qs !! k)) ->
          x =f= arithmetic_mean qs) /\
       ((exists k y, k < p /\ s !! (i + 1 - p + k) = Some y /\
                     is_fin y = false) ->
        x = NaN)).
Proof.
  intros Hi. exists (rolling_at agg_mean p s i). split; [|split].
  - unfold sma, rolling_mean. apply lookup_rolling. exact Hi.
  - intros Hshort. unfold rolling_at. cbn zeta.
    pose proof (length_observations (window p s i)) as Hle.
    rewrite length_window in Hle by exact Hi.
    destruct (decide _) as [Hge|]; [lia | reflexivity].
  - intros Hp. split.
    + intros qs Hlen Hqs.
      assert (Hw : window p s i = Fin <$> qs).
      { apply window_trailing; try assumption.
        - rewrite length_fmap. exact Hlen.
        - intros k Hk. rewrite list_lookup_fmap. apply Hqs. exact Hk. }
      unfold rolling_at. cbn zeta. rewrite Hw, observations_Fin.
      destruct (decide _) as [_|Hn]; [apply agg_mean_arithmetic | lia].
    + intros (k & y & Hk & Hy & Hbad).
      unfold rolling_at. cbn zeta.
      assert (Hlt : length (observations (window p s i)) < p).
      { replace p with (length (window p s i)) at 2
          by (rewrite length_window by exact Hi; lia).
        apply observations_short. exists k, y. split; [|exact Hbad].
        rewrite lookup_window by lia. rewrite <- Hy. f_equal. lia. }
      destruct (decide _) as [Hge|]; [lia | reflexivity].
Qed.

(** The mean of 1, 2, 3 at the last place of a Series of four values. *)
Lemma sma_trailing_mean_witness :
  3 < length [Fin 5; Fin 1; Fin 2; Fin 3] /\
  exists x, sma [Fin 5; Fin 1; Fin 2; Fin 3] 3 !! 3 = Some x /\
    (3 + 1 < 3 -> x = NaN) /\
    (3 <= 3 + 1 ->
       (forall qs : list Q, length qs = 3 ->
          (forall k, k < 3 ->
             [Fin 5; Fin 1; Fin 2; Fin 3] !! (3 + 1 - 3 + k) = Fin <$> (qs !! k)) ->
          x =f= arithmetic_mean qs) /\
       ((exists k y, k < 3 /\
           [Fin 5; Fin 1; Fin 2; Fin 3] !! (3 + 1 - 3 + k) = Some y /\
           is_fin y = false) ->
        x = NaN)).
Proof.
  split; [simpl; lia|].
  apply (sma_trailing_mean [Fin 5; Fin 1; Fin 2; Fin 3] 3 3). simpl. lia.
Defined.

Example sma_example :
  sma [Fin 5; Fin 1; Fin 2; Fin 3] 3 = [NaN; NaN; Fin (8 # 3); Fin 2].
Proof. reflexivity. Qed.

End SMA.

(** ** True range *)

Section TrueRange.

Lemma row_max_first (x : float64) : row_max [x; NaN; NaN] = x.
Proof. destruct x; reflexivity. Qed.

Lemma fsub_nan_r (x : float64) : fsub x NaN = NaN.
Proof. destruct x; reflexivity. Qed.

Lemma max_skipna2_Fin (a b : Q) :
  max_skipna2 (Fin a) (Fin b) =f= Fin (Qmax a b).
Proof.
  cbn [max_skipna2 flt]. destruct (Qltb a b) eqn:E; cbn [feq].
  - apply Qltb_lt in E. symmetry. apply Q.max_r. apply Qlt_le_weak. exact E.
  - apply Qltb_ge in E. symmetry. apply Q.max_l. exact E.
Qed.

Lemma max_skipna2_feq (x x' y y' : float64) :
  x =f= x' -> y =f= y' -> max_skipna2 x y =f= max_skipna2 x' y'.
Proof.
  intros Hx Hy. pose proof (flt_feq _ _ _ _ Hx Hy) as Hlt.
  destruct x, x'; try contradiction; destruct y, y'; try contradiction;
    cbn [max_skipna2] in *; try exact Hx; try exact Hy; try exact I;
    rewrite <- Hlt; destruct (flt _ _); assumption.
Qed.

Lemma row_max_Fin3 (a b c : Q) :
  row_max [Fin a; Fin b; Fin c] =f= Fin (Qmax a (Qmax b c)).
Proof.
  unfold row_max. cbn [foldr].
  change (max_skipna2 (Fin c) NaN) with (Fin c).
  rewrite (max_skipna2_feq (Fin a) (Fin a) _ (Fin (Qmax b c)));
    [apply max_skipna2_Fin | reflexivity | apply max_skipna2_Fin].
Qed.

Lemma lookup_concat3_max (a b c : Series) (i : nat) (x y z : float64) :
  a !! i = Some x -> b !! i = Some y -> c !! i = Some z ->
  concat3_max a b c !! i = Some (row_max [x; y; z]).
Proof.
  intros Ha Hb Hc. unfold concat3_max. rewrite lookup_zip_with, Ha.
  cbn [mbind option_bind].
  assert (Hz : zip b c !! i = Some (y, z)) by (apply lookup_zip_Some; auto).
  rewrite Hz. reflexivity.
Qed.

Lemma lookup_col (f : candle -> float64) (df : DataFrame) (i : nat) (c : candle) :
  df !! i = Some c -> col f df !! i = Some (f c).
Proof. intros H. unfold col. rewrite list_lookup_fmap, H. reflexivity. Qed.

Lemma length_col (f : candle -> float64) (df : DataFrame) :
  length (col f df) = length df.
Proof. apply length_fmap. Qed.

Lemma lookup_ssub (a b : Series) (i : nat) (x y : float64) :
  a !! i = Some x -> b !! i = Some y -> ssub a b !! i = Some (fsub x y).
Proof.
  intros Ha Hb. unfold ssub. rewrite lookup_zip_with, Ha, Hb. reflexivity.
Qed.

Lemma lookup_sabs (a : Series) (i : nat) (x : float64) :
  a !! i = Some x -> sabs a !! i = Some (fabs x).
Proof. intros Ha. unfold sabs. rewrite list_lookup_fmap, Ha. reflexivity. Qed.

(** The value of [true_range] at a position, from the bar there and the
    close one place before ([NaN] at the first place, where [shift] has
    nothing to give). *)
Lemma lookup_true_range (df : DataFrame) (i : nat) (c : candle) (pc : float64) :
  df !! i = Some c ->
  shift (col close df) !! i = Some pc ->
  true_range df !! i =
    Some (row_max [fsub (high c) (low c); fabs (fsub (high c) pc);
                   fabs (fsub (low c) pc)]).
Proof.
  intros Hc Hpc. unfold true_range. apply lookup_concat3_max.
  - apply lookup_ssub; apply lookup_col; exact Hc.
  - apply lookup_sabs, lookup_ssub; [apply lookup_col; exact Hc | exact Hpc].
  - apply lookup_sabs, lookup_ssub; [apply lookup_col; exact Hc | exact Hpc].
Qed.

Lemma length_true_range (df : DataFrame) : length (true_range df) = length df.
Proof.
  unfold true_range, concat3_max, ssub, sabs.
  rewrite !length_zip_with, !length_fmap, !length_zip_with,
    !length_shift, !length_col. lia.
Qed.

(** C8, as the program has it.  At the first place the true range is
    [high - low]: the two columns that need the previous close are missing
    there and the row maximum skips them.  At a later place it is the row
    maximum of the three columns, which for numbers is
    [max(high - low, |high - prev close|, |low - prev close|)]. *)
Theorem true_range_rows (df : DataFrame) (i : nat) (c : candle) :
  df !! i = Some c ->
  (i = 0 -> true_range df !! i = Some (fsub (high c) (low c))) /\
  (forall c' : candle, 0 < i -> df !! (i - 1) = Some c' ->
     true_range df !! i =
       Some (row_max [fsub (high c) (low c);
                      fabs (fsub (high c) (close c'));
                      fabs (fsub (low c) (close c'))]) /\
     forall h l pc : Q,
       high c = Fin h -> low c = Fin l -> close c' = Fin pc ->
       exists x, true_range df !! i = Some x /\
         x =f= Fin (Qmax (h - l) (Qmax (Qabs (h - pc)) (Qabs (l - pc))))).
Proof.
  intros Hc.
  assert (Hi : i < length df) by (eapply lookup_lt_Some; eauto).
  split.
  - intros ->. rewrite (lookup_true_range df 0 c NaN Hc).
    + rewrite !fsub_nan_r. f_equal. apply row_max_first.
    + apply lookup_shift_0. rewrite length_col. exact Hi.
  - intros c' Hpos Hc'.
    assert (Hpc : shift (col close df) !! i = Some (close c')).
    { destruct i as [|j]; [lia|]. rewrite lookup_shift_S
        by (rewrite length_col; exact Hi).
      apply lookup_col. rewrite <- Hc'. f_equal. lia. }
    rewrite (lookup_true_range df i c (close c') Hc Hpc).
    split; [reflexivity|].
    intros h l pc -> -> ->. eexists. split; [reflexivity|].
    cbn [fsub fneg fadd fabs].
    etransitivity; [apply row_max_Fin3|].
    cbn [feq]. rewrite !Qred_correct. reflexivity.
Qed.

Lemma true_range_rows_witness :
  [one_bar; one_bar] !! 1 = Some one_bar /\
  (1 = 0 -> true_range [one_bar; one_bar] !! 1
            = Some (fsub (high one_bar) (low one_bar))) /\
  (forall c' : candle, 0 < 1 -> [one_bar; one_bar] !! (1 - 1) = Some c' ->
     true_range [one_bar; one_bar] !! 1 =
       Some (row_max [fsub (high one_bar) (low one_bar);
                      fabs (fsub (high one_bar) (close c'));
                      fabs (fsub (low one_bar) (close c'))]) /\
     forall h l pc : Q,
       high one_bar = Fin h -> low one_bar = Fin l -> close c' = Fin pc ->
       exists x, true_range [one_bar; one_bar] !! 1 = Some x /\
         x =f= Fin (Qmax (h - l) (Qmax (Qabs (h - pc)) (Qabs (l - pc))))).
Proof.
  split; [reflexivity|].
  apply (true_range_rows [one_bar; one_bar] 1 one_bar). reflexivity.
Defined.

(** C8 as stated fails at the first place: the true range of a single bar
    with high 12 and low 9 is 3, not a missing value. *)
Lemma true_range_first_bar_defined :
  true_range [one_bar] !! 0 = Some (Fin 3) /\
  true_range [one_bar] !! 0 <> Some NaN.
Proof. split; [reflexivity | discriminate]. Qed.

End TrueRange.

(** ** The crossover rule *)

Section Crossover.

Lemma iloc_neg (s : Series) (k : nat) :
  0 < k <= length s ->
  exists x, s !! (length s - k) = Some x /\ iloc s (- Z.of_nat k) = Ok x.
Proof.
  intros Hk.
  destruct (lookup_lt_is_Some_2 s (length s - k)) as [x Hx]; [lia|].
  exists x. split; [exact Hx|]. unfold iloc.
  destruct (Z.ltb_spec (- Z.of_nat k) 0) as [_|Hge]; [|lia].
  destruct (Z.leb_spec 0 (Z.of_nat (length s) + - Z.of_nat k)) as [_|Hlt]; [|lia].
  destruct (Z.ltb_spec (Z.of_nat (length s) + - Z.of_nat k)
              (Z.of_nat (length s))) as [_|Hge]; [|lia].
  cbn [andb].
  replace (Z.to_nat (Z.of_nat (length s) + - Z.of_nat k))
    with (length s - k) by lia.
  rewrite Hx. reflexivity.
Qed.

Lemma iloc_empty (k : Z) : iloc [] k = Raise IndexError.
Proof.
  unfold iloc. cbn [length Z.of_nat].
  destruct (k <? 0)%Z;
    destruct (_ && _)%bool eqn:E; try reflexivity;
    apply andb_true_iff in E as [E1 E2];
    apply Z.leb_le in E1; apply Z.ltb_lt in E2; lia.
Qed.

Lemma length_sma (s : Series) (p : nat) : length (sma s p) = length s.
Proof. apply length_rolling. Qed.

Lemma flt_asym (x y : float64) : flt x y = true -> flt y x = false.
Proof.
  destruct x, y; cbn [flt]; try discriminate; try reflexivity.
  rewrite Qltb_lt, Qltb_ge. apply Qlt_le_weak.
Qed.

(** The chained comparisons of the program read the ordering at the place
    counted from the end. *)
Lemma chain_gt_ordered (df : DataFrame) (k : nat) :
  0 < k <= length df ->
  chain_gt (sma (col close df) 3) (sma (col close df) 8)
           (sma (col close df) 20) (- Z.of_nat k)
  = Ok (ordered_up df (length df - k)).
Proof.
  intros Hk. unfold chain_gt, ordered_up.
  destruct (iloc_neg (sma (col close df) 3) k) as (a & Ha & ->);
    [rewrite length_sma, length_col; exact Hk|].
  destruct (iloc_neg (sma (col close df) 8) k) as (b & Hb & ->);
    [rewrite length_sma, length_col; exact Hk|].
  destruct (iloc_neg (sma (col close df) 20) k) as (c & Hc & ->);
    [rewrite length_sma, length_col; exact Hk|].
  rewrite length_sma, length_col in Ha, Hb, Hc. rewrite Ha, Hb, Hc.
  cbn [mbind result_bind]. destruct (fgt a b); reflexivity.
Qed.

Lemma chain_lt_ordered (df : DataFrame) (k : nat) :
  0 < k <= length df ->
  chain_lt (sma (col close df) 3) (sma (col close df) 8)
           (sma (col close df) 20) (- Z.of_nat k)
  = Ok (ordered_down df (length df - k)).
Proof.
  intros Hk. unfold chain_lt, ordered_down.
  destruct (iloc_neg (sma (col close df) 3) k) as (a & Ha & ->);
    [rewrite length_sma, length_col; exact Hk|].
  destruct (iloc_neg (sma (col close df) 8) k) as (b & Hb & ->);
    [rewrite length_sma, length_col; exact Hk|].
  destruct (iloc_neg (sma (col close df) 20) k) as (c & Hc & ->);
    [rewrite length_sma, length_col; exact Hk|].
  rewrite length_sma, length_col in Ha, Hb, Hc. rewrite Ha, Hb, Hc.
  cbn [mbind result_bind]. destruct (flt a b); reflexivity.
Qed.

(** The two orderings exclude each other. *)
Lemma ordered_up_down (df : DataFrame) (i : nat) :
  ordered_up df i = true -> ordered_down df i = false.
Proof.
  unfold ordered_up, ordered_down.
  destruct (_ !! i) as [a|]; [|discriminate].
  destruct (_ !! i) as [b|]; [|discriminate].
  destruct (_ !! i) as [c|]; [|discriminate].
  intros H. apply andb_true_iff in H as [H _].
  unfold fgt in H. rewrite (flt_asym _ _ H). reflexivity.
Qed.

(** [triple_sma_cross] as a function of the two orderings at the last two
    places. *)
Lemma triple_sma_cross_eq (df : DataFrame) :
  3 <= length df ->
  triple_sma_cross df =
  Ok (if ordered_up df (length df - 1) && negb (ordered_up df (length df - 2))
      then Some LONG
      else if ordered_down df (length df - 1)
              && negb (ordered_down df (length df - 2))
      then Some SHORT else None).
Proof.
  intros Hlen. unfold triple_sma_cross. cbn zeta.
  destruct (decide (length df < 3)) as [Hlt|_]; [lia|].
  change (-1)%Z with (- Z.of_nat 1)%Z. change (-2)%Z with (- Z.of_nat 2)%Z.
  rewrite !chain_gt_ordered, !chain_lt_ordered by lia.
  cbn [mbind result_bind mret result_ret].
  destruct (ordered_up df (length df - 1)); cbn [mbind result_bind mret result_ret andb];
    [destruct (ordered_up df (length df - 2)); cbn [negb]; try reflexivity|];
    (destruct (ordered_down df (length df - 1));
     cbn [mbind result_bind mret result_ret andb];
     [destruct (ordered_down df (length df - 2)); reflexivity | reflexivity]).
Qed.

Lemma triple_sma_cross_short (df : DataFrame) :
  length df < 3 -> triple_sma_cross df = Ok None.
Proof.
  intros Hlt. unfold triple_sma_cross. cbn zeta.
  destruct (decide (length df < 3)); [reflexivity | lia].
Qed.

(** C5.  With fewer than three bars the result is [None] and nothing is
    raised.  With three bars or more the result is LONG exactly when
    fast > medium > slow holds at the last place and did not hold one place
    before, SHORT exactly when fast < medium < slow holds at the last place and
    did not hold one place before, and [None] in every other case. *)
Theorem triple_sma_cross_edge (df : DataFrame) :
  (length df < 3 -> triple_sma_cross df = Ok None) /\
  (3 <= length df ->
     (triple_sma_cross df = Ok (Some LONG) <->
        ordered_up df (length df - 1) = true /\
        ordered_up df (length df - 2) = false) /\
     (triple_sma_cross df = Ok (Some SHORT) <->
        ordered_down df (length df - 1) = true /\
        ordered_down df (length df - 2) = false) /\
     (triple_sma_cross df = Ok None <->
        ~ (ordered_up df (length df - 1) = true /\
           ordered_up df (length df - 2) = false) /\
        ~ (ordered_down df (length df - 1) = true /\
           ordered_down df (length df - 2) = false))).
Proof.
  split.
  - apply triple_sma_cross_short.
  - intros Hlen. rewrite (triple_sma_cross_eq df Hlen).
    pose proof (ordered_up_down df (length df - 1)) as Hex.
    destruct (ordered_up df (length df - 1)),
             (ordered_up df (length df - 2)),
             (ordered_down df (length df - 1)),
             (ordered_down df (length df - 2));
      cbn [andb negb]; try (specialize (Hex eq_refl); discriminate);
      intuition congruence.
Qed.

End Crossover.

(** ** Fetching *)

Section Fetch.

Lemma iloc_to_last_app (closed : DataFrame) (last_bar : candle) :
  iloc_to_last (closed ++ [last_bar]) = closed.
Proof.
  unfold iloc_to_last. rewrite length_app. cbn [length].
  replace (length closed + 1 - 1) with (length closed) by lia.
  apply take_app_length.
Qed.

(** C9.  Whatever table the provider returns, [fetch_klines] returns it
    without its last row, the bar that is still open, and [analyze_symbol]
    computes on that shorter frame only. *)
Theorem fetch_klines_drops_open_bar (http : provider) (symbol : string)
    (closed : DataFrame) (last_bar : candle) :
  (forall interval limit,
     http symbol interval limit = Table (closed ++ [last_bar]) ->
     fetch_klines http symbol interval limit = Ok closed) /\
  (forall cfg,
     http symbol "15m"%string 200 = Table (closed ++ [last_bar]) ->
     analyze_symbol cfg http symbol = analyze_frame cfg symbol closed).
Proof.
  split.
  - intros interval limit H. unfold fetch_klines. rewrite H.
    rewrite iloc_to_last_app. reflexivity.
  - intros cfg H. unfold analyze_symbol, fetch_klines. rewrite H.
    rewrite iloc_to_last_app. reflexivity.
Qed.

Lemma fetch_klines_drops_open_bar_witness :
  rally_provider "BNBUSDT"%string "15m"%string 200
    = Table (rally_frame ++ [open_bar]) /\
  fetch_klines rally_provider "BNBUSDT" "15m" 200 = Ok rally_frame /\
  analyze_symbol default_config rally_provider "BNBUSDT"
    = analyze_frame default_config "BNBUSDT" rally_frame.
Proof.
  pose proof (fetch_klines_drops_open_bar rally_provider "BNBUSDT"
                rally_frame open_bar) as [Hfetch Hanalyze].
  split; [reflexivity|]. split.
  - apply Hfetch. reflexivity.
  - apply Hanalyze. reflexivity.
Defined.

End Fetch.

(** ** Sums, means and deviations *)

Section Sums.

Lemma Qsum_cons (x : Q) (l : list Q) : Qsum (x :: l) = (x + Qsum l)%Q.
Proof. reflexivity. Qed.

Lemma Qsum_nonneg (l : list Q) :
  Forall (fun x => (0 <= x)%Q) l -> (0 <= Qsum l)%Q.
Proof.
  induction 1 as [|x l Hx _ IH]; [apply Qle_refl|].
  rewrite Qsum_cons. lra.
Qed.

Lemma Qsum_zero (l : list Q) :
  Forall (fun x => (x == 0)%Q) l -> (Qsum l == 0)%Q.
Proof.
  induction 1 as [|x l Hx _ IH]; [reflexivity|].
  rewrite Qsum_cons. lra.
Qed.

(** A sum of non-negative terms is zero only if every term is. *)
Lemma Qsum_nonneg_zero (l : list Q) :
  Forall (fun x => (0 <= x)%Q) l -> (Qsum l == 0)%Q ->
  Forall (fun x => (x == 0)%Q) l.
Proof.
  induction 1 as [|x l Hx Hl IH]; intros Hsum; [constructor|].
  rewrite Qsum_cons in Hsum. pose proof (Qsum_nonneg l Hl) as Hnn.
  constructor; [lra | apply IH; lra].
Qed.

Lemma Qsquare_nonneg (x : Q) : (0 <= x * x)%Q.
Proof. nra. Qed.

Lemma Qsquare_zero (x : Q) : (x * x == 0)%Q -> (x == 0)%Q.
Proof. intros H. nra. Qed.

Lemma Qssqdm_nonneg (l : list Q) : (0 <= Qssqdm l)%Q.
Proof.
  unfold Qssqdm. apply Qsum_nonneg. apply Forall_fmap, Forall_forall.
  intros x _. apply Qsquare_nonneg.
Qed.

(** No deviation at all: every value is the mean. *)
Lemma Qssqdm_zero (l : list Q) :
  (Qssqdm l == 0)%Q -> Forall (fun x => (x == Qmean l)%Q) l.
Proof.
  unfold Qssqdm. intros H. apply Qsum_nonneg_zero in H.
  - apply Forall_fmap in H. eapply Forall_impl; [exact H|].
    intros x Hx. cbn in Hx. apply Qsquare_zero in Hx. lra.
  - apply Forall_fmap, Forall_forall. intros x _. apply Qsquare_nonneg.
Qed.

Lemma Qmean_zero (l : list Q) :
  Forall (fun x => (x == 0)%Q) l -> (Qmean l == 0)%Q.
Proof.
  intros H. unfold Qmean. rewrite (Qsum_zero l H).
  unfold Qdiv. ring.
Qed.

Lemma Qmean_nonneg (l : list Q) :
  Forall (fun x => (0 <= x)%Q) l -> (0 <= Qmean l)%Q.
Proof.
  intros H. unfold Qmean. pose proof (Qsum_nonneg l H) as Hs.
  destruct l as [|x l]; [compute; discriminate|].
  apply Qle_shift_div_l.
  - unfold Qlt. cbn. lia.
  - lra.
Qed.

(** The square root is zero only at zero. *)
Lemma Qsqrt_zero (q : Q) : (0 <= q)%Q -> (Qsqrt q == 0)%Q -> (q == 0)%Q.
Proof.
  intros Hq H. unfold Qsqrt in H. cbn zeta in H.
  rewrite Qred_correct in H. rewrite <- (Qred_correct q).
  rewrite <- (Qred_correct q) in Hq.
  destruct (Qred q) as [n d]. unfold Qeq, Qle in *. cbn in *.
  assert (Hn : (0 <= n)%Z) by lia.
  assert (Hs : Z.sqrt (n * Z.pos d * (sqrt_scale * sqrt_scale)) = 0%Z) by lia.
  destruct (Z.eq_dec n 0%Z) as [->|Hne]; [reflexivity|].
  exfalso.
  assert (Hpos : (1 <= n * Z.pos d * (sqrt_scale * sqrt_scale))%Z).
  { unfold sqrt_scale. nia. }
  pose proof (Z.sqrt_le_mono 1%Z _ Hpos) as Hmono.
  change (Z.sqrt 1) with 1%Z in Hmono. lia.
Qed.

End Sums.

(** ** Bollinger width *)

Section Bollinger.

Lemma lookup_sadd (a b : Series) (i : nat) (x y : float64) :
  a !! i = Some x -> b !! i = Some y -> sadd a b !! i = Some (fadd x y).
Proof.
  intros Ha Hb. unfold sadd. rewrite lookup_zip_with, Ha, Hb. reflexivity.
Qed.

Lemma lookup_sdiv (a b : Series) (i : nat) (x y : float64) :
  a !! i = Some x -> b !! i = Some y -> sdiv a b !! i = Some (fdiv x y).
Proof.
  intros Ha Hb. unfold sdiv. rewrite lookup_zip_with, Ha, Hb. reflexivity.
Qed.

Lemma lookup_smul_l (k : float64) (a : Series) (i : nat) (x : float64) :
  a !! i = Some x -> smul_l k a !! i = Some (fmul k x).
Proof. intros Ha. unfold smul_l. rewrite list_lookup_fmap, Ha. reflexivity. Qed.

Lemma lookup_width (c : Series) (i : nat) :
  i < length c ->
  (bollinger_bands c).2 !! i =
    Some (width_at (rolling_at agg_mean BOLLINGER_PERIOD c i)
                   (rolling_at agg_std BOLLINGER_PERIOD c i)).
Proof.
  intros Hi. unfold bollinger_bands. cbn [snd].
  pose proof (lookup_rolling agg_mean BOLLINGER_PERIOD c i Hi) as Hma.
  pose proof (lookup_rolling agg_std BOLLINGER_PERIOD c i Hi) as Hsd.
  unfold width_at. apply lookup_sdiv; [|exact Hma].
  apply lookup_ssub.
  - apply lookup_sadd; [exact Hma | apply lookup_smul_l; exact Hsd].
  - apply lookup_ssub; [exact Hma | apply lookup_smul_l; exact Hsd].
Qed.

Lemma length_width (c : Series) : length (bollinger_bands c).2 = length c.
Proof.
  unfold bollinger_bands, sdiv, ssub, sadd, smul_l, rolling_mean, rolling_std.
  cbn [snd].
  rewrite !length_zip_with, !length_fmap, !length_rolling. lia.
Qed.

(** Midline and deviation come from the same window, so both are numbers or
    both are missing. *)
Lemma midline_std_cases (c : Series) (i : nat) :
  i < length c ->
  (rolling_at agg_mean BOLLINGER_PERIOD c i = NaN /\
   rolling_at agg_std BOLLINGER_PERIOD c i = NaN) \/
  (exists o : list Q,
     window BOLLINGER_PERIOD c i = Fin <$> o /\ length o = BOLLINGER_PERIOD /\
     rolling_at agg_mean BOLLINGER_PERIOD c i = Fin (Qred (Qmean o)) /\
     rolling_at agg_std BOLLINGER_PERIOD c i =
       Fin (Qsqrt (Qssqdm o / inject_Z (Z.of_nat (length o - 1))))).
Proof.
  intros Hi. unfold rolling_at. cbn zeta.
  pose proof (length_observations (window BOLLINGER_PERIOD c i)) as Hle.
  pose proof (length_window BOLLINGER_PERIOD c i Hi) as Hw.
  destruct (decide _) as [Hge|Hlt]; [right | left; split; reflexivity].
  exists (observations (window BOLLINGER_PERIOD c i)).
  assert (Hlen : length (observations (window BOLLINGER_PERIOD c i))
                 = BOLLINGER_PERIOD) by lia.
  split; [apply observations_full; lia|]. split; [exact Hlen|].
  unfold agg_mean, agg_std. rewrite Hlen.
  destruct (observations (window BOLLINGER_PERIOD c i)); [discriminate|].
  split; reflexivity.
Qed.

(** The width of a number midline [m] and deviation [s] is [4 s / m] in the
    arithmetic of the program. *)
Lemma width_at_Fin (m s : Q) :
  width_at (Fin m) (Fin s) =
    if Qis0 m then (if Qis0 s then NaN else inf_signed (Qltb 0 s))
    else
      Fin (Qred (Qred (Qred (m + Qred (2 * s))
                       + Qred (- Qred (m + Qred (- Qred (2 * s))))) / m)).
Proof.
  unfold width_at, BOLLINGER_STD, lit. cbn [fmul fadd fsub fneg fdiv].
  change (Qred 2) with 2%Q.
  set (u := Qred (Qred (m + Qred (2 * s))
                  + Qred (- Qred (m + Qred (- Qred (2 * s)))))).
  assert (Hu : (u == 4 * s)%Q).
  { unfold u. rewrite !Qred_correct. ring. }
  destruct (Qis0 m); [|reflexivity].
  assert (H0 : Qis0 u = Qis0 s).
  { destruct (Qis0 s) eqn:Es.
    - apply Qis0_true. apply Qis0_true in Es. lra.
    - apply Qis0_false. apply Qis0_false in Es. lra. }
  rewrite H0. destruct (Qis0 s); [reflexivity|]. f_equal.
  destruct (Qltb 0 s) eqn:El.
  - apply Qltb_lt. apply Qltb_lt in El. lra.
  - apply Qltb_ge. apply Qltb_ge in El. lra.
Qed.

Lemma width_at_nan_l (sd : float64) : width_at NaN sd = NaN.
Proof. reflexivity. Qed.

(** A missing width: the midline is missing, or the window is eight zeros. *)
Lemma width_nan_cases (c : Series) (i : nat) :
  i < length c ->
  (bollinger_bands c).2 !! i = Some NaN ->
  rolling_at agg_mean BOLLINGER_PERIOD c i = NaN \/
  (exists o : list Q,
     window BOLLINGER_PERIOD c i = Fin <$> o /\ length o = BOLLINGER_PERIOD /\
     Forall (fun x => (x == 0)%Q) o).
Proof.
  intros Hi Hw. rewrite lookup_width in Hw by exact Hi.
  destruct (midline_std_cases c i Hi) as [[Hma _]|(o & Hwin & Hlen & Hma & Hsd)];
    [left; exact Hma | right].
  exists o. split; [exact Hwin|]. split; [exact Hlen|].
  rewrite Hma, Hsd, width_at_Fin in Hw.
  destruct (Qis0 (Qred (Qmean o))) eqn:Em; [|discriminate].
  destruct (Qis0 (Qsqrt _)) eqn:Es;
    [|destruct (Qltb 0 _); discriminate].
  apply Qis0_true in Em, Es. rewrite Qred_correct in Em.
  assert (Hv : (Qssqdm o / inject_Z (Z.of_nat (length o - 1)) == 0)%Q).
  { apply Qsqrt_zero; [|exact Es].
    apply Qle_shift_div_l.
    - rewrite Hlen. reflexivity.
    - pose proof (Qssqdm_nonneg o). lra. }
  assert (Hss : (Qssqdm o == 0)%Q).
  { rewrite Hlen in Hv. cbn in Hv.
    rewrite <- (Qmult_div_r (Qssqdm o) (7 # 1)) by discriminate.
    change (inject_Z 7) with (7 # 1) in Hv. rewrite Hv. ring. }
  eapply Forall_impl; [apply Qssqdm_zero; exact Hss|].
  intros x Hx. cbn in Hx. lra.
Qed.

End Bollinger.

(** ** The three filters *)

Section Filters.

Lemma iloc_last (s : Series) (x : float64) :
  0 < length s -> s !! (length s - 1) = Some x -> iloc s (-1) = Ok x.
Proof.
  intros Hlen Hx. destruct (iloc_neg s 1) as (y & Hy & H); [lia|].
  rewrite Hx in Hy. injection Hy as <-. exact H.
Qed.

Lemma fgt_nan_r (x : float64) : fgt x NaN = false.
Proof. reflexivity. Qed.

Lemma flt_nan_r (x : float64) : flt x NaN = false.
Proof. destruct x; reflexivity. Qed.

(** No ordering where the medium average is missing. *)
Lemma no_order_medium_nan (df : DataFrame) (i : nat) :
  sma (col close df) 8 !! i = Some NaN ->
  ordered_up df i = false /\ ordered_down df i = false.
Proof.
  intros H. unfold ordered_up, ordered_down. rewrite H.
  destruct (sma (col close df) 3 !! i) as [f|]; [|split; reflexivity].
  destruct (sma (col close df) 20 !! i) as [s|]; [|split; reflexivity].
  rewrite fgt_nan_r, flt_nan_r. split; reflexivity.
Qed.

(** The window of three is the end of the window of eight. *)
Lemma window_3_of_8 (s : Series) (i : nat) :
  7 <= i -> window 3 s i = drop 5 (window 8 s i).
Proof.
  intros Hi. unfold window. rewrite drop_drop. f_equal. lia.
Qed.

(** No ordering where the last eight closes are all zero: fast and medium
    are both zero. *)
Lemma no_order_zeros (df : DataFrame) (i : nat) (o : list Q) :
  i < length df ->
  window 8 (col close df) i = Fin <$> o -> length o = 8 ->
  Forall (fun x => (x == 0)%Q) o ->
  ordered_up df i = false /\ ordered_down df i = false.
Proof.
  intros Hi Hwin Hlen Hzero.
  assert (Hic : i < length (col close df)) by (rewrite length_col; exact Hi).
  assert (H7 : 7 <= i).
  { pose proof (length_window 8 (col close df) i Hic) as Hw.
    rewrite Hwin, length_fmap, Hlen in Hw. lia. }
  unfold ordered_up, ordered_down, sma, rolling_mean.
  rewrite !lookup_rolling by exact Hic.
  assert (H3 : exists a, rolling_at agg_mean 3 (col close df) i = Fin a /\ (a == 0)%Q).
  { unfold rolling_at. cbn zeta. rewrite window_3_of_8 by exact H7.
    rewrite Hwin, <- fmap_drop, observations_Fin.
    assert (Hl3 : length (drop 5 o) = 3) by (rewrite length_drop; lia).
    destruct (decide _) as [_|Hn]; [|lia].
    unfold agg_mean. destruct (drop 5 o) as [|q l] eqn:E; [discriminate|].
    eexists. split; [reflexivity|]. rewrite Qred_correct.
    apply Qmean_zero. rewrite <- E. apply Forall_drop. exact Hzero. }
  assert (H8 : exists b, rolling_at agg_mean 8 (col close df) i = Fin b /\ (b == 0)%Q).
  { unfold rolling_at. cbn zeta. rewrite Hwin, observations_Fin.
    destruct (decide _) as [_|Hn]; [|lia].
    unfold agg_mean. destruct o as [|q l]; [discriminate|].
    eexists. split; [reflexivity|]. rewrite Qred_correct.
    apply Qmean_zero. exact Hzero. }
  destruct H3 as (a & -> & Ha), H8 as (b & -> & Hb).
  assert (Hgt : fgt (Fin a) (Fin b) = false)
    by (cbn; apply Qltb_ge; lra).
  assert (Hlt : flt (Fin a) (Fin b) = false)
    by (cbn; apply Qltb_ge; lra).
  rewrite Hgt, Hlt. split; reflexivity.
Qed.

(** [triple_sma_cross] never raises, and gives [None] without an ordering at
    the last place. *)
Lemma triple_sma_cross_Ok (df : DataFrame) :
  exists r, triple_sma_cross df = Ok r.
Proof.
  destruct (decide (length df < 3)) as [Hlt|Hge].
  - exists None. apply triple_sma_cross_short. exact Hlt.
  - eexists. apply triple_sma_cross_eq. lia.
Qed.

Lemma triple_sma_cross_no_order (df : DataFrame) :
  ordered_up df (length df - 1) = false ->
  ordered_down df (length df - 1) = false ->
  triple_sma_cross df = Ok None.
Proof.
  intros Hu Hd. destruct (decide (length df < 3)) as [Hlt|Hge].
  - apply triple_sma_cross_short. exact Hlt.
  - rewrite triple_sma_cross_eq by lia. rewrite Hu, Hd. reflexivity.
Qed.

(** Where the width at the last place is missing, the crossover rule has not
    fired. *)
Lemma width_nan_no_cross (df : DataFrame) :
  (bollinger_bands (col close df)).2 !! (length df - 1) = Some NaN ->
  triple_sma_cross df = Ok None.
Proof.
  intros Hw.
  assert (Hi : length df - 1 < length df).
  { apply lookup_lt_Some in Hw. rewrite length_width, length_col in Hw. lia. }
  assert (Hic : length df - 1 < length (col close df))
    by (rewrite length_col; exact Hi).
  destruct (width_nan_cases _ _ Hic Hw) as [Hma|(o & Hwin & Hlen & Hz)].
  - destruct (no_order_medium_nan df (length df - 1)) as [Hu Hd].
    { unfold sma, rolling_mean. rewrite lookup_rolling by exact Hic.
      f_equal. exact Hma. }
    apply triple_sma_cross_no_order; assumption.
  - destruct (no_order_zeros df (length df - 1) o Hi Hwin Hlen Hz) as [Hu Hd].
    apply triple_sma_cross_no_order; assumption.
Qed.

Lemma length_adx (df : DataFrame) : length (adx df) = length df.
Proof.
  unfold adx, fillna, rolling_mean. rewrite length_fmap, length_rolling.
  unfold sdiv, smul_l, sabs, ssub, sadd, rolling_sum, rolling_mean, where_,
    gt_and_pos, sneg, diff, ssub.
  repeat (rewrite ?length_zip_with, ?length_fmap, ?length_rolling,
            ?length_shift, ?length_col, ?length_true_range).
  lia.
Qed.

(** [adx] has no missing value: [fillna(0)] is its last step. *)
Lemma adx_not_nan (df : DataFrame) (i : nat) (a : float64) :
  adx df !! i = Some a -> is_nan a = false.
Proof.
  unfold adx, fillna. rewrite list_lookup_fmap.
  destruct (_ !! i) as [x|]; [|discriminate].
  cbn. intros [= <-]. destruct (is_nan x) eqn:E; [reflexivity | exact E].
Qed.

(** [analyze_symbol] on a frame with a last bar: the three early returns. *)
Lemma analyze_frame_eq (cfg : Config) (symbol : string) (df : DataFrame)
    (w a price : float64) (cross : option side) :
  (bollinger_bands (col close df)).2 !! (length df - 1) = Some w ->
  adx df !! (length df - 1) = Some a ->
  col close df !! (length df - 1) = Some price ->
  triple_sma_cross df = Ok cross ->
  analyze_frame cfg symbol df =
    Ok (if flt w (BOLLINGER_WIDTH_MIN_PCT cfg) then None
        else if flt a (ADX_MIN cfg) then None
        else match cross with
             | None => None
             | Some sd => Some {| sig_symbol := symbol; sig_side := sd;
                                  sig_price := price; sig_adx := a |}
             end).
Proof.
  intros Hw Ha Hp Hc.
  assert (Hlen : 0 < length df).
  { apply lookup_lt_Some in Hp. rewrite length_col in Hp. lia. }
  unfold analyze_frame.
  destruct (bollinger_bands (col close df)) as [[upper lower] width] eqn:Hb.
  cbn [snd] in Hw.
  assert (Hlw : length width = length df).
  { change width with ((upper, lower, width).2). rewrite <- Hb.
    rewrite length_width, length_col. reflexivity. }
  rewrite (iloc_last (adx df) a) by (rewrite length_adx; assumption).
  cbn [mbind result_bind]. rewrite Hc. cbn [mbind result_bind].
  rewrite (iloc_last width w) by (rewrite Hlw; assumption).
  cbn [mbind result_bind].
  destruct (flt w _); [reflexivity|].
  destruct (flt a _); [reflexivity|].
  destruct cross as [sd|]; [|reflexivity].
  rewrite (iloc_last (col close df) price)
    by (rewrite length_col; assumption).
  reflexivity.
Qed.

Lemma analyze_frame_empty (cfg : Config) (symbol : string) :
  analyze_frame cfg symbol [] = Raise IndexError.
Proof. reflexivity. Qed.

End Filters.

(** ** Emission of a signal *)

Section Emission.

Lemma fge_nan_l (y : float64) : fge NaN y = false.
Proof. destruct y; reflexivity. Qed.

Lemma fge_refl (x : float64) : is_nan x = false -> fge x x = true.
Proof.
  destruct x; try discriminate; try reflexivity.
  intros _. cbn. apply Qle_bool_iff. apply Qle_refl.
Qed.

(** C4.  [analyze_symbol] returns a signal exactly when, at the last bar, the
    Bollinger width is at least the configured minimum, the ADX value is at
    least the configured minimum and the crossover rule has fired; a value
    equal to its minimum passes; the signal carries the direction of the
    crossover, the last close and the ADX value. *)
Theorem signal_iff_filters (cfg : Config) (symbol : string) (df : DataFrame)
    (sig : Signal) :
  is_nan (BOLLINGER_WIDTH_MIN_PCT cfg) = false ->
  is_nan (ADX_MIN cfg) = false ->
  (analyze_frame cfg symbol df = Ok (Some sig) <->
   exists (w a price : float64) (sd : side),
     (bollinger_bands (col close df)).2 !! (length df - 1) = Some w /\
     adx df !! (length df - 1) = Some a /\
     col close df !! (length df - 1) = Some price /\
     fge w (BOLLINGER_WIDTH_MIN_PCT cfg) = true /\
     fge a (ADX_MIN cfg) = true /\
     triple_sma_cross df = Ok (Some sd) /\
     sig = {| sig_symbol := symbol; sig_side := sd;
              sig_price := price; sig_adx := a |}) /\
  fge (BOLLINGER_WIDTH_MIN_PCT cfg) (BOLLINGER_WIDTH_MIN_PCT cfg) = true /\
  fge (ADX_MIN cfg) (ADX_MIN cfg) = true.
Proof.
  intros Hwmin Hamin.
  split; [|split; apply fge_refl; assumption].
  destruct (decide (length df = 0)) as [Hz|Hnz].
  - destruct df; [|discriminate]. rewrite analyze_frame_empty.
    split; [discriminate|]. intros (w & a & price & sd & _ & _ & Hp & _).
    cbn in Hp. discriminate.
  - assert (Hi : length df - 1 < length df) by lia.
    destruct (lookup_lt_is_Some_2 ((bollinger_bands (col close df)).2)
                (length df - 1)) as [w Hw];
      [rewrite length_width, length_col; exact Hi|].
    destruct (lookup_lt_is_Some_2 (adx df) (length df - 1)) as [a Ha];
      [rewrite length_adx; exact Hi|].
    destruct (lookup_lt_is_Some_2 (col close df) (length df - 1)) as [p Hp];
      [rewrite length_col; exact Hi|].
    destruct (triple_sma_cross_Ok df) as [cross Hc].
    rewrite (analyze_frame_eq cfg symbol df w a p cross Hw Ha Hp Hc).
    rewrite Hw, Ha, Hp, Hc.
    pose proof (adx_not_nan df _ a Ha) as Hna.
    rewrite (flt_fge a (ADX_MIN cfg) Hna Hamin).
    destruct (is_nan w) eqn:Enw.
    + destruct w; try discriminate.
      rewrite (width_nan_no_cross df Hw) in Hc. injection Hc as <-.
      cbn [flt]. split.
      * destruct (negb _); discriminate.
      * intros (w & a' & price & sd & [= <-] & _ & _ & Hf & _).
        rewrite fge_nan_l in Hf. discriminate.
    + rewrite (flt_fge w (BOLLINGER_WIDTH_MIN_PCT cfg) Enw Hwmin).
      destruct (fge w (BOLLINGER_WIDTH_MIN_PCT cfg)) eqn:Ew; cbn [negb].
      2:{ split; [discriminate|].
          intros (w' & a' & price & sd & [= <-] & _ & _ & Hf & _).
          congruence. }
      destruct (fge a (ADX_MIN cfg)) eqn:Ea; cbn [negb].
      2:{ split; [discriminate|].
          intros (w' & a' & price & sd & _ & [= <-] & _ & _ & Hf & _).
          congruence. }
      destruct cross as [sd|].
      2:{ split; [discriminate|].
          intros (w' & a' & price & sd & _ & _ & _ & _ & _ & Hf & _).
          discriminate. }
      split.
      * intros [= <-]. exists w, a, p, sd.
        repeat split; first [assumption | reflexivity].
      * intros (w' & a' & price & sd' & _ & [= <-] & [= <-] & _ & _
                & [= <-] & ->). reflexivity.
Qed.

Lemma signal_iff_filters_witness :
  is_nan (BOLLINGER_WIDTH_MIN_PCT default_config) = false /\
  is_nan (ADX_MIN default_config) = false /\
  (analyze_frame default_config "BNBUSDT" rally_frame
     = Ok (Some (rally_signal "BNBUSDT")) <->
   exists (w a price : float64) (sd : side),
     (bollinger_bands (col close rally_frame)).2 !! (length rally_frame - 1)
       = Some w /\
     adx rally_frame !! (length rally_frame - 1) = Some a /\
     col close rally_frame !! (length rally_frame - 1) = Some price /\
     fge w (BOLLINGER_WIDTH_MIN_PCT default_config) = true /\
     fge a (ADX_MIN default_config) = true /\
     triple_sma_cross rally_frame = Ok (Some sd) /\
     rally_signal "BNBUSDT" =
       {| sig_symbol := "BNBUSDT"; sig_side := sd;
          sig_price := price; sig_adx := a |}) /\
  fge (BOLLINGER_WIDTH_MIN_PCT default_config)
      (BOLLINGER_WIDTH_MIN_PCT default_config) = true /\
  fge (ADX_MIN default_config) (ADX_MIN default_config) = true.
Proof.
  split; [reflexivity|]. split; [reflexivity|].
  apply (signal_iff_filters default_config "BNBUSDT" rally_frame
           (rally_signal "BNBUSDT")); reflexivity.
Defined.

(** The rally passes the three filters with the default thresholds. *)
Example rally_gives_signal :
  analyze_frame default_config "BNBUSDT" rally_frame
    = Ok (Some (rally_signal "BNBUSDT")).
Proof. vm_compute. reflexivity. Qed.

End Emission.

(** ** The width where the midline is missing or zero *)

Section WidthGuard.

Lemma lookup_midline (c : Series) (i : nat) (m : float64) :
  midline c !! i = Some m ->
  i < length c /\ m = rolling_at agg_mean BOLLINGER_PERIOD c i.
Proof. apply lookup_rolling_Some. Qed.

(** No guard: at a missing midline the width is missing, at a zero midline it
    is missing or infinite. *)
Lemma width_at_no_midline (c : Series) (i : nat) (m w : float64) :
  midline c !! i = Some m -> (m = NaN \/ m =f= Fin 0) ->
  (bollinger_bands c).2 !! i = Some w ->
  is_fin w = false /\ (m = NaN -> w = NaN).
Proof.
  intros Hm Hcase Hw. apply lookup_midline in Hm as [Hi Hm].
  rewrite lookup_width in Hw by exact Hi. injection Hw as <-.
  destruct (midline_std_cases c i Hi) as [[Hma Hsd]|(o & _ & _ & Hma & Hsd)].
  - rewrite Hma, width_at_nan_l. split; reflexivity.
  - rewrite Hma, Hsd, width_at_Fin. rewrite Hma in Hm. subst m.
    destruct Hcase as [Hcase|Hcase]; [discriminate|].
    cbn in Hcase. apply Qis0_true in Hcase. rewrite Hcase.
    split; [|discriminate].
    destruct (Qis0 (Qsqrt _)); [reflexivity|].
    destruct (Qltb 0 (Qsqrt _)); reflexivity.
Qed.


Lemma flt_nan_or_pinf_l (w y : float64) :
  w = NaN \/ w = PInf -> flt w y = false.
Proof. intros [->| ->]; destruct y; reflexivity. Qed.

(** C3, as the program has it.  The width is [(upper - lower) / midline]
    with no guard.  Where the midline is missing the width is missing (NaN);
    where the midline is zero the width is no number either, missing or
    infinite.  At the last bar such a width reaches the comparison with the
    minimum, which rejects neither NaN nor plus infinity: the result is then
    what the ADX filter and the crossover decide.  When the midline at the
    last bar is missing, no signal is returned, since the crossover cannot
    fire without the average of eight. *)
Theorem width_without_midline (cfg : Config) (symbol : string)
    (df : DataFrame) (i : nat) (m : float64) :
  midline (col close df) !! i = Some m ->
  (m = NaN \/ m =f= Fin 0) ->
  exists w,
    (bollinger_bands (col close df)).2 !! i = Some w /\
    is_fin w = false /\
    (m = NaN -> w = NaN) /\
    (i = length df - 1 ->
       ((w = NaN \/ w = PInf) ->
          flt w (BOLLINGER_WIDTH_MIN_PCT cfg) = false /\
          exists a price cross,
            adx df !! i = Some a /\
            col close df !! i = Some price /\
            triple_sma_cross df = Ok cross /\
            analyze_frame cfg symbol df =
              Ok (if flt a (ADX_MIN cfg) then None
                  else match cross with
                       | None => None
                       | Some sd =>
                           Some {| sig_symbol := symbol; sig_side := sd;
                                   sig_price := price; sig_adx := a |}
                       end)) /\
       (m = NaN -> analyze_frame cfg symbol df = Ok None)).
Proof.
  intros Hm Hcase.
  pose proof (lookup_midline _ _ _ Hm) as [Hi _].
  destruct (lookup_lt_is_Some_2 ((bollinger_bands (col close df)).2) i)
    as [w Hw]; [rewrite length_width; exact Hi|].
  destruct (width_at_no_midline _ _ _ _ Hm Hcase Hw) as [Hfin Hnan].
  exists w. split; [exact Hw|]. split; [exact Hfin|]. split; [exact Hnan|].
  intros ->. rewrite length_col in Hi.
  destruct (lookup_lt_is_Some_2 (adx df) (length df - 1)) as [a Ha];
    [rewrite length_adx; exact Hi|].
  destruct (lookup_lt_is_Some_2 (col close df) (length df - 1)) as [p Hp];
    [rewrite length_col; exact Hi|].
  destruct (triple_sma_cross_Ok df) as [cross Hc].
  pose proof (analyze_frame_eq cfg symbol df w a p cross Hw Ha Hp Hc) as Heq.
  split.
  - intros Hw'.
    pose proof (flt_nan_or_pinf_l w (BOLLINGER_WIDTH_MIN_PCT cfg) Hw') as Hlt.
    split; [exact Hlt|]. exists a, p, cross.
    rewrite Hlt in Heq. repeat split; assumption.
  - intros ->.
    destruct (no_order_medium_nan df (length df - 1) Hm) as [Hu Hd].
    rewrite (triple_sma_cross_no_order df Hu Hd) in Hc. injection Hc as <-.
    rewrite Heq. destruct (flt w _); [reflexivity|].
    destruct (flt a _); reflexivity.
Qed.



Lemma width_without_midline_witness :
  midline (col close flat_zero_frame) !! 7 = Some (Fin 0) /\
  (Fin 0 = NaN \/ Fin 0 =f= Fin 0) /\
  exists w,
    (bollinger_bands (col close flat_zero_frame)).2 !! 7 = Some w /\
    is_fin w = false /\
    (Fin 0 = NaN -> w = NaN) /\
    (7 = length flat_zero_frame - 1 ->
       ((w = NaN \/ w = PInf) ->
          flt w (BOLLINGER_WIDTH_MIN_PCT default_config) = false /\
          exists a price cross,
            adx flat_zero_frame !! 7 = Some a /\
            col close flat_zero_frame !! 7 = Some price /\
            triple_sma_cross flat_zero_frame = Ok cross /\
            analyze_frame default_config "BNBUSDT" flat_zero_frame =
              Ok (if flt a (ADX_MIN default_config) then None
                  else match cross with
                       | None => None
                       | Some sd =>
                           Some {| sig_symbol := "BNBUSDT"; sig_side := sd;
                                   sig_price := price; sig_adx := a |}
                       end)) /\
       (Fin 0 = NaN ->
        analyze_frame default_config "BNBUSDT" flat_zero_frame = Ok None)).
Proof.
  assert (Hm : midline (col close flat_zero_frame) !! 7 = Some (Fin 0))
    by (vm_compute; reflexivity).
  assert (Hz : Fin 0 = NaN \/ Fin 0 =f= Fin 0) by (right; reflexivity).
  split; [exact Hm|]. split; [exact Hz|].
  exact (width_without_midline default_config "BNBUSDT" flat_zero_frame 7
           (Fin 0) Hm Hz).
Defined.

(** C3 as stated fails.  On eight closes of zero the midline is zero, the
    width is NaN, and the comparison of the width filter receives it and does
    not reject.  On the frame with closes of both signs the midline at the
    last bar is zero, the width is infinite, it passes the width filter and a
    signal is returned. *)
Lemma infinite_width_gives_signal :
  (midline (col close flat_zero_frame) !! 7 = Some (Fin 0) /\
   (bollinger_bands (col close flat_zero_frame)).2 !! 7 = Some NaN /\
   flt NaN (BOLLINGER_WIDTH_MIN_PCT default_config) = false) /\
  (midline (col close zero_midline_frame) !! 25 = Some (Fin 0) /\
   (bollinger_bands (col close zero_midline_frame)).2 !! 25 = Some PInf /\
   flt PInf (BOLLINGER_WIDTH_MIN_PCT default_config) = false /\
   analyze_frame default_config "BNBUSDT" zero_midline_frame
     = Ok (Some {| sig_symbol := "BNBUSDT"; sig_side := LONG;
                   sig_price := Fin 10;
                   sig_adx := Fin (24840385 # 415701) |})).
Proof. vm_compute. repeat split; reflexivity. Qed.

End WidthGuard.

(** ** ADX *)

Section ADX.

Lemma adx_unfold (df : DataFrame) :
  adx df = fillna (lit 0) (rolling_mean ADX_PERIOD (adx_dx df)).
Proof. reflexivity. Qed.

(** *** Signs, value by value *)

Lemma fabs_not_below_zero (x : float64) : not_below_zero (fabs x).
Proof.
  destruct x; cbn; auto. rewrite Qred_correct. apply Qabs_nonneg.
Qed.

Lemma fsub_not_below_zero (h l : float64) :
  flt h l = false -> not_below_zero (fsub h l).
Proof.
  destruct h, l; cbn; auto; try discriminate.
  intros H. apply Qltb_ge in H. rewrite !Qred_correct. lra.
Qed.

Lemma max_skipna2_not_below_zero (x y : float64) :
  not_below_zero x -> not_below_zero y -> not_below_zero (max_skipna2 x y).
Proof.
  destruct x, y; cbn; auto; try contradiction.
  intros Hx Hy. destruct (Qltb q q0); assumption.
Qed.

Lemma row_max_not_below_zero (row : list float64) :
  Forall not_below_zero row -> not_below_zero (row_max row).
Proof.
  induction 1 as [|x row Hx _ IH]; [exact I|].
  cbn. apply max_skipna2_not_below_zero; assumption.
Qed.

(** The observations of values that are not below zero are not negative. *)
Lemma observations_nonneg (w : list float64) :
  Forall not_below_zero w -> Forall (fun q => (0 <= q)%Q) (observations w).
Proof.
  induction 1 as [|x w Hx _ IH]; [constructor|].
  rewrite observations_cons. destruct x; cbn; try assumption.
  constructor; assumption.
Qed.

Lemma Forall_window (P : float64 -> Prop) (p : nat) (s : Series) (i : nat) :
  Forall P s -> Forall P (window p s i).
Proof.
  intros H. unfold window. apply Forall_drop, Forall_take. exact H.
Qed.

Lemma rolling_mean_nonneg (p : nat) (s : Series) (i : nat) :
  Forall not_below_zero s -> nan_or_nonneg (rolling_at agg_mean p s i).
Proof.
  intros H. unfold rolling_at. cbn zeta.
  pose proof (observations_nonneg _ (Forall_window _ p s i H)) as Ho.
  destruct (decide _); [|exact I].
  unfold agg_mean. destruct (observations (window p s i)) eqn:E; [exact I|].
  cbn. rewrite Qred_correct. apply Qmean_nonneg. exact Ho.
Qed.

Lemma fdiv_nan_r (x : float64) : fdiv x NaN = NaN.
Proof. destruct x; reflexivity. Qed.

(** A division by zero gives no number. *)
Lemma fdiv_zero_not_fin (x d : float64) :
  d =f= Fin 0 -> is_fin (fdiv x d) = false.
Proof.
  destruct d as [| | |d]; cbn [feq]; try contradiction.
  intros Hd. apply Qis0_true in Hd.
  destruct x as [| | |n]; cbn [fdiv]; try reflexivity.
  - destruct (Qle_bool 0 d); reflexivity.
  - destruct (Qltb d 0); reflexivity.
  - rewrite Hd. destruct (Qis0 n); [reflexivity|].
    destruct (Qltb 0 n); reflexivity.
Qed.

(** *** The Series of [adx], place by place *)

Lemma length_diff (s : Series) : length (diff s) = length s.
Proof.
  unfold diff, ssub. rewrite length_zip_with, length_shift. lia.
Qed.

Lemma length_adx_plus (df : DataFrame) : length (adx_plus df) = length df.
Proof.
  unfold adx_plus, where_, gt_and_pos, sneg. cbn zeta.
  rewrite !length_zip_with, !length_fmap, !length_diff, !length_col. lia.
Qed.

Lemma length_adx_minus (df : DataFrame) : length (adx_minus df) = length df.
Proof.
  unfold adx_minus, where_, gt_and_pos, sneg. cbn zeta.
  rewrite !length_zip_with, !length_fmap, !length_diff, !length_col. lia.
Qed.

Lemma where_gt_and_pos_not_below_zero (a b : Series) :
  Forall not_below_zero (where_ a (gt_and_pos a b) (lit 0)).
Proof.
  apply Forall_lookup. intros k x Hk. unfold where_ in Hk.
  apply lookup_zip_with_Some in Hk as (u & c & -> & Hu & Hc).
  destruct c; [|compute; discriminate].
  unfold gt_and_pos in Hc.
  apply lookup_zip_with_Some in Hc as (u' & d & Hcond & Hu' & _).
  rewrite Hu in Hu'. injection Hu' as <-.
  symmetry in Hcond. apply andb_true_iff in Hcond as [_ Hpos].
  unfold fgt, lit in Hpos.
  destruct u as [| | |q]; try discriminate Hpos; [exact I|].
  change (Qltb 0 q = true) in Hpos. apply Qltb_lt in Hpos.
  cbn [not_below_zero]. lra.
Qed.

Lemma true_range_not_below_zero (df : DataFrame) :
  high_not_below_low df -> Forall not_below_zero (true_range df).
Proof.
  intros Hwf. apply Forall_lookup. intros i x Hx.
  assert (Hi : i < length df).
  { rewrite <- length_true_range. eapply lookup_lt_Some; eauto. }
  destruct (lookup_lt_is_Some_2 df i Hi) as [c Hc].
  destruct (lookup_lt_is_Some_2 (shift (col close df)) i) as [pc Hpc];
    [rewrite length_shift, length_col; exact Hi|].
  rewrite (lookup_true_range df i c pc Hc Hpc) in Hx. injection Hx as <-.
  apply (row_max_not_below_zero [_; _; _]). repeat constructor.
  - apply fsub_not_below_zero.
    unfold high_not_below_low in Hwf. rewrite Forall_lookup in Hwf.
    exact (Hwf i c Hc).
  - apply fabs_not_below_zero.
  - apply fabs_not_below_zero.
Qed.

Lemma lookup_adx_pdi (df : DataFrame) (j : nat) :
  j < length df ->
  adx_pdi df !! j =
    Some (fdiv (fmul (lit 100) (rolling_at agg_sum ADX_PERIOD (adx_plus df) j))
               (rolling_at agg_mean ADX_PERIOD (true_range df) j)).
Proof.
  intros Hj. unfold adx_pdi. apply lookup_sdiv.
  - apply lookup_smul_l. apply lookup_rolling.
    rewrite length_adx_plus. exact Hj.
  - apply lookup_rolling. rewrite length_true_range. exact Hj.
Qed.

Lemma lookup_adx_mdi (df : DataFrame) (j : nat) :
  j < length df ->
  adx_mdi df !! j =
    Some (fdiv (fmul (lit 100) (rolling_at agg_sum ADX_PERIOD (adx_minus df) j))
               (rolling_at agg_mean ADX_PERIOD (true_range df) j)).
Proof.
  intros Hj. unfold adx_mdi. apply lookup_sdiv.
  - apply lookup_smul_l. apply lookup_rolling.
    rewrite length_adx_minus. exact Hj.
  - apply lookup_rolling. rewrite length_true_range. exact Hj.
Qed.

Lemma lookup_adx_dx (df : DataFrame) (j : nat) :
  j < length df ->
  adx_dx df !! j =
    Some (dx_at (rolling_at agg_sum ADX_PERIOD (adx_plus df) j)
                (rolling_at agg_sum ADX_PERIOD (adx_minus df) j)
                (rolling_at agg_mean ADX_PERIOD (true_range df) j)).
Proof.
  intros Hj. unfold adx_dx, dx_at. cbn zeta.
  pose proof (lookup_adx_pdi df j Hj) as Hp.
  pose proof (lookup_adx_mdi df j Hj) as Hm.
  apply lookup_sdiv.
  - apply lookup_smul_l, lookup_sabs, lookup_ssub; assumption.
  - apply lookup_sadd; assumption.
Qed.

Lemma length_adx_dx (df : DataFrame) : length (adx_dx df) = length df.
Proof.
  rewrite <- (length_adx df), adx_unfold. unfold fillna, rolling_mean.
  rewrite length_fmap, length_rolling. reflexivity.
Qed.

Lemma lookup_adx (df : DataFrame) (i : nat) (a : float64) :
  adx df !! i = Some a ->
  i < length df /\
  a = (let x := rolling_at agg_mean ADX_PERIOD (adx_dx df) i in
       if is_nan x then lit 0 else x).
Proof.
  intros Ha. assert (Hi : i < length df).
  { rewrite <- length_adx. eapply lookup_lt_Some; eauto. }
  split; [exact Hi|]. rewrite adx_unfold in Ha. unfold fillna in Ha.
  rewrite list_lookup_fmap in Ha. unfold rolling_mean in Ha.
  rewrite lookup_rolling in Ha by (rewrite length_adx_dx; exact Hi).
  cbn in Ha. injection Ha as <-. reflexivity.
Qed.

(** A window of [dx] with a value that is no number gives zero. *)
Lemma adx_zero_of_short_window (df : DataFrame) (i : nat) (a : float64) :
  adx df !! i = Some a ->
  length (observations (window ADX_PERIOD (adx_dx df) i)) < ADX_PERIOD ->
  a = Fin 0.
Proof.
  intros Ha Hshort. apply lookup_adx in Ha as [_ ->]. cbn zeta.
  unfold rolling_at. cbn zeta.
  destruct (decide _) as [Hge|_]; [lia | reflexivity].
Qed.

(** Before the eighth bar the average true range is missing, and so is
    [dx]. *)
Lemma adx_dx_early (df : DataFrame) (j : nat) :
  j < length df -> j < ADX_PERIOD - 1 -> adx_dx df !! j = Some NaN.
Proof.
  intros Hj Hearly. rewrite lookup_adx_dx by exact Hj. f_equal.
  assert (Hatr : rolling_at agg_mean ADX_PERIOD (true_range df) j = NaN).
  { unfold rolling_at. cbn zeta.
    pose proof (length_observations (window ADX_PERIOD (true_range df) j)) as Hle.
    rewrite length_window in Hle by (rewrite length_true_range; exact Hj).
    destruct (decide _) as [Hge|_]; [|reflexivity].
    unfold ADX_PERIOD in *. lia. }
  rewrite Hatr. unfold dx_at. cbn zeta. rewrite !fdiv_nan_r. reflexivity.
Qed.

Lemma window_short_of_bad (p : nat) (s : Series) (i j : nat) (y : float64) :
  i < length s -> i < j + p -> j <= i ->
  s !! j = Some y -> is_fin y = false ->
  length (observations (window p s i)) < p.
Proof.
  intros Hi Hlo Hhi Hy Hbad.
  pose proof (length_window p s i Hi) as Hlen.
  assert (Hlt : length (observations (window p s i)) < length (window p s i)).
  { apply observations_short. exists (j - (S i - p)), y. split; [|exact Hbad].
    rewrite lookup_window by lia. rewrite <- Hy. f_equal. lia. }
  lia.
Qed.


(** X6.  [adx] is at no place a missing value, and it is exactly zero where
    the sum [pdi + mdi], by which [dx] is divided, is zero, and at the first
    fourteen places, where the two rolling windows of eight have too little
    history: [fillna(0)] turns the missing mean into zero. *)
Theorem adx_zero_coercion (df : DataFrame) (i : nat) (a : float64) :
  adx df !! i = Some a ->
  is_nan a = false /\
  ((exists d, sadd (adx_pdi df) (adx_mdi df) !! i = Some d /\ d =f= Fin 0) ->
   a = Fin 0) /\
  (i < 2 * ADX_PERIOD - 2 -> a = Fin 0).
Proof.
  intros Ha. pose proof (lookup_adx df i a Ha) as [Hi Hval].
  assert (Hid : i < length (adx_dx df)) by (rewrite length_adx_dx; exact Hi).
  split; [|split].
  - exact (adx_not_nan df i a Ha).
  - intros (d & Hd & Hzero).
    apply (adx_zero_of_short_window df i a Ha).
    destruct (lookup_lt_is_Some_2 (adx_dx df) i Hid) as [x Hx].
    apply (window_short_of_bad ADX_PERIOD (adx_dx df) i i x Hid);
      [unfold ADX_PERIOD; lia | lia | exact Hx |].
    unfold adx_dx, sdiv in Hx.
    apply lookup_zip_with_Some in Hx as (n & d' & -> & _ & Hd').
    rewrite Hd in Hd'. injection Hd' as <-.
    apply fdiv_zero_not_fin. exact Hzero.
  - intros Hearly. apply (adx_zero_of_short_window df i a Ha).
    destruct (decide (i < ADX_PERIOD - 1)) as [Hlt|Hge].
    + pose proof (length_observations (window ADX_PERIOD (adx_dx df) i)) as Hle.
      rewrite length_window in Hle by exact Hid.
      unfold ADX_PERIOD in *. lia.
    + apply (window_short_of_bad ADX_PERIOD (adx_dx df) i
               (i - (ADX_PERIOD - 1)) NaN Hid);
        [unfold ADX_PERIOD in *; lia | lia | | reflexivity].
      apply adx_dx_early; unfold ADX_PERIOD in *; lia.
Qed.

Lemma adx_zero_coercion_witness :
  adx rally_frame !! 13 = Some (Fin 0) /\
  is_nan (Fin 0) = false /\
  ((exists d, sadd (adx_pdi rally_frame) (adx_mdi rally_frame) !! 13 = Some d
              /\ d =f= Fin 0) ->
   Fin 0 = Fin 0) /\
  (13 < 2 * ADX_PERIOD - 2 -> Fin 0 = Fin 0).
Proof.
  assert (H : adx rally_frame !! 13 = Some (Fin 0))
    by (vm_compute; reflexivity).
  split; [exact H|].
  exact (adx_zero_coercion rally_frame 13 (Fin 0) H).
Defined.

End ADX.

(** ** One cycle of the loop *)

Section Cycle.

Context (cfg : Config) (http : provider) (telegram : notifier).

Lemma for_symbols_cons_ok (symbol : string) (rest : list string)
    (res : option Signal) :
  analyze_symbol cfg http symbol = Ok res ->
  for_symbols cfg http telegram (symbol :: rest) =
    (on_result telegram res ++ (for_symbols cfg http telegram rest).1,
     (for_symbols cfg http telegram rest).2).
Proof.
  intros H. cbn [for_symbols]. rewrite H.
  destruct (for_symbols cfg http telegram rest). reflexivity.
Qed.

Lemma for_symbols_cons_raise (symbol : string) (rest : list string) (e : exn) :
  analyze_symbol cfg http symbol = Raise e ->
  for_symbols cfg http telegram (symbol :: rest) = ([], Some e).
Proof. intros H. cbn [for_symbols]. rewrite H. reflexivity. Qed.

(** Symbols that are analysed without an exception let the loop go on. *)
Lemma for_symbols_app (before rest : list string) :
  Forall (fun s => exists r, analyze_symbol cfg http s = Ok r) before ->
  for_symbols cfg http telegram (before ++ rest) =
    ((for_symbols cfg http telegram before).1
       ++ (for_symbols cfg http telegram rest).1,
     (for_symbols cfg http telegram rest).2) /\
  (for_symbols cfg http telegram before).2 = None.
Proof.
  induction 1 as [|s before [r Hr] _ [IH1 IH2]].
  - cbn. destruct (for_symbols cfg http telegram rest). split; reflexivity.
  - cbn [app]. rewrite !(for_symbols_cons_ok s _ r Hr), IH1. cbn [fst snd].
    rewrite app_assoc. split; [reflexivity | exact IH2].
Qed.

(** The signal of a symbol that the loop reaches is posted. *)
Lemma for_symbols_posts (symbols : list string) (s : string) (sig : Signal) :
  Forall (fun s => exists r, analyze_symbol cfg http s = Ok r) symbols ->
  s ∈ symbols -> analyze_symbol cfg http s = Ok (Some sig) ->
  Post (Alert sig) ∈ (for_symbols cfg http telegram symbols).1.
Proof.
  induction 1 as [|s' symbols [r Hr] _ IH]; intros Hin Hsig.
  - apply elem_of_nil in Hin. contradiction.
  - rewrite (for_symbols_cons_ok s' _ r Hr). cbn [fst].
    apply elem_of_app. apply elem_of_cons in Hin as [->|Hin].
    + left. rewrite Hsig in Hr. injection Hr as <-.
      cbn [on_result send_telegram]. apply elem_of_cons. left. reflexivity.
    + right. apply IH; assumption.
Qed.

Lemma try_block_eq (symbols : list string) :
  try_block cfg http telegram symbols =
    (for_symbols cfg http telegram symbols).1
    ++ match (for_symbols cfg http telegram symbols).2 with
       | Some e => [Log (CycleError e)]
       | None => []
       end.
Proof.
  unfold try_block. destruct (for_symbols cfg http telegram symbols).
  reflexivity.
Qed.

(** The machine runs the [try] block: from the loop over [symbols] it comes
    to the sleep with the events of the block, whatever the flag. *)
Lemma main_steps_try_block (symbols : list string) (st : state) :
  pc st = InCycle symbols ->
  exists n, n <= length symbols + 1 /\
    Nat.iter n (main_step cfg http telegram) st =
      {| pc := Sleeping; SHUTDOWN := SHUTDOWN st;
         trace := trace st ++ try_block cfg http telegram symbols |}.
Proof.
  revert st. induction symbols as [|s rest IH]; intros [ph flag tr] Hpc;
    cbn in Hpc; subst ph.
  - exists 1. split; [cbn; lia|]. cbn. reflexivity.
  - destruct (analyze_symbol cfg http s) as [res|e] eqn:Hs.
    + destruct (IH {| pc := InCycle rest; SHUTDOWN := flag;
                      trace := tr ++ on_result telegram res |} eq_refl)
        as (n & Hn & Hrun).
      exists (S n). split; [cbn; lia|].
      assert (Hstep : main_step cfg http telegram
                        {| pc := InCycle (s :: rest); SHUTDOWN := flag;
                           trace := tr |}
                      = {| pc := InCycle rest; SHUTDOWN := flag;
                           trace := tr ++ on_result telegram res |}).
      { unfold main_step. cbn [pc SHUTDOWN trace main_next].
        rewrite Hs.
        reflexivity. }
      rewrite Nat.iter_succ_r, Hstep, Hrun. cbn [SHUTDOWN trace]. f_equal.
      rewrite !try_block_eq, (for_symbols_cons_ok s rest res Hs). cbn [fst snd].
      rewrite !app_assoc. reflexivity.
    + exists 1. split; [cbn; lia|].
      change (Nat.iter 1 (main_step cfg http telegram) ?x)
        with (main_step cfg http telegram x).
      unfold main_step. cbn [pc SHUTDOWN trace main_next]. rewrite Hs.
      rewrite try_block_eq, (for_symbols_cons_raise s rest e Hs). reflexivity.
Qed.

(** C1, as the program has it.  The [try] statement is around the whole
    [for] loop.  When the analysis of an instrument raises, the instruments
    before it have been analysed and their signals posted, the failure is
    logged once, the instruments after it are not analysed in this cycle, and
    the loop goes on with the sleep and the next cycle. *)
Theorem cycle_stops_at_failure (before after : list string) (failing : string)
    (e : exn) :
  Forall (fun s => exists r, analyze_symbol cfg http s = Ok r) before ->
  analyze_symbol cfg http failing = Raise e ->
  try_block cfg http telegram (before ++ failing :: after)
    = try_block cfg http telegram before ++ [Log (CycleError e)] /\
  (forall s sig, s ∈ before -> analyze_symbol cfg http s = Ok (Some sig) ->
     Post (Alert sig) ∈ try_block cfg http telegram (before ++ failing :: after)) /\
  (forall flag, main_next cfg http telegram (InCycle (failing :: after)) flag
                = (Sleeping, [Log (CycleError e)])) /\
  (forall flag, main_next cfg http telegram Sleeping flag
                = (AtCheck, [Sleep (POLL_SECONDS cfg)])) /\
  main_next cfg http telegram AtCheck false = (InCycle FIXED_SYMBOLS, []).
Proof.
  intros Hbefore Hfail.
  destruct (for_symbols_app before (failing :: after) Hbefore) as [Happ Hnone].
  assert (Htry : try_block cfg http telegram (before ++ failing :: after)
                 = try_block cfg http telegram before ++ [Log (CycleError e)]).
  { rewrite !try_block_eq, Happ, Hnone. cbn [fst snd].
    rewrite (for_symbols_cons_raise failing after e Hfail). cbn [fst snd].
    rewrite !app_nil_r. reflexivity. }
  split; [exact Htry|]. split; [|split; [|split]].
  - intros s sig Hin Hsig. rewrite Htry, try_block_eq.
    apply elem_of_app. left. apply elem_of_app. left.
    apply (for_symbols_posts before s sig); assumption.
  - intros flag. cbn [main_next]. rewrite Hfail. reflexivity.
  - reflexivity.
  - reflexivity.
Qed.

End Cycle.

Lemma cycle_stops_at_failure_witness :
  Forall (fun s => exists r,
            analyze_symbol default_config third_fails_provider s = Ok r)
         ["BCHUSDT"%string; "BNBUSDT"%string] /\
  analyze_symbol default_config third_fails_provider "CHZUSDT"
    = Raise (HTTPError 500) /\
  try_block default_config third_fails_provider telegram_up
      (["BCHUSDT"%string; "BNBUSDT"%string] ++ "CHZUSDT"%string :: ["DOGEUSDT"%string; "ENAUSDT"%string])
    = try_block default_config third_fails_provider telegram_up
        ["BCHUSDT"%string; "BNBUSDT"%string]
      ++ [Log (CycleError (HTTPError 500))] /\
  (forall s sig, s ∈ ["BCHUSDT"%string; "BNBUSDT"%string] ->
     analyze_symbol default_config third_fails_provider s = Ok (Some sig) ->
     Post (Alert sig) ∈
       try_block default_config third_fails_provider telegram_up
         (["BCHUSDT"%string; "BNBUSDT"%string] ++ "CHZUSDT"%string :: ["DOGEUSDT"%string; "ENAUSDT"%string])) /\
  (forall flag,
     main_next default_config third_fails_provider telegram_up
       (InCycle ("CHZUSDT"%string :: ["DOGEUSDT"%string; "ENAUSDT"%string])) flag
     = (Sleeping, [Log (CycleError (HTTPError 500))])) /\
  (forall flag,
     main_next default_config third_fails_provider telegram_up Sleeping flag
     = (AtCheck, [Sleep (POLL_SECONDS default_config)])) /\
  main_next default_config third_fails_provider telegram_up AtCheck false
    = (InCycle FIXED_SYMBOLS, []).
Proof.
  assert (Hok : Forall (fun s => exists r,
                   analyze_symbol default_config third_fails_provider s = Ok r)
                ["BCHUSDT"%string; "BNBUSDT"%string]).
  { repeat constructor; eexists; vm_compute; reflexivity. }
  assert (Hfail : analyze_symbol default_config third_fails_provider "CHZUSDT"
                  = Raise (HTTPError 500)) by reflexivity.
  split; [exact Hok|]. split; [exact Hfail|].
  exact (cycle_stops_at_failure default_config third_fails_provider telegram_up
           ["BCHUSDT"%string; "BNBUSDT"%string] ["DOGEUSDT"%string; "ENAUSDT"%string]
           "CHZUSDT" (HTTPError 500) Hok Hfail).
Defined.

(** C1 as stated fails: the first symbol of the list fails, the second has a
    signal, and the cycle posts nothing. *)
Lemma failure_hides_later_signal :
  "BNBUSDT"%string ∈ FIXED_SYMBOLS /\
  analyze_symbol default_config first_fails_provider "BCHUSDT"
    = Raise ConnectionError /\
  analyze_symbol default_config first_fails_provider "BNBUSDT"
    = Ok (Some (rally_signal "BNBUSDT")) /\
  try_block default_config first_fails_provider telegram_up FIXED_SYMBOLS
    = [Log (CycleError ConnectionError)] /\
  Post (Alert (rally_signal "BNBUSDT"))
    ∉ try_block default_config first_fails_provider telegram_up FIXED_SYMBOLS.
Proof.
  split; [unfold FIXED_SYMBOLS; set_solver|].
  split; [reflexivity|].
  split; [vm_compute; reflexivity|].
  assert (H : try_block default_config first_fails_provider telegram_up
                FIXED_SYMBOLS = [Log (CycleError ConnectionError)])
    by reflexivity.
  split; [exact H|]. rewrite H. intros Hin.
  apply list_elem_of_singleton in Hin. discriminate.
Qed.

(** ** Cancellation *)

Section Cancellation.

Context (cfg : Config).

Lemma main_step_pc (http : provider) (telegram : notifier) (st : state) :
  pc (main_step cfg http telegram st)
  = (main_next cfg http telegram (pc st) (SHUTDOWN st)).1.
Proof.
  unfold main_step. destruct (main_next _ _ _ _ _). reflexivity.
Qed.

Lemma main_step_flag (http : provider) (telegram : notifier) (st : state) :
  SHUTDOWN (main_step cfg http telegram st) = SHUTDOWN st.
Proof.
  unfold main_step. destruct (main_next _ _ _ _ _). reflexivity.
Qed.

Lemma main_step_trace (http : provider) (telegram : notifier) (st : state) :
  trace (main_step cfg http telegram st)
  = trace st ++ (main_next cfg http telegram (pc st) (SHUTDOWN st)).2.
Proof.
  unfold main_step. destruct (main_next _ _ _ _ _). reflexivity.
Qed.

(** Nothing is ever taken back from the trace. *)
Lemma step_trace (st st' : state) (ev : event) :
  step cfg st st' -> ev ∈ trace st -> ev ∈ trace st'.
Proof.
  intros Hstep. destruct Hstep as [http telegram s _|telegram s _]; intros Hin.
  - rewrite main_step_trace. apply elem_of_app. left. exact Hin.
  - cbn. apply elem_of_app. left. exact Hin.
Qed.

(** Once the flag is set between two cycles no cycle begins. *)
Lemma stopping_step (st st' : state) :
  stopping st -> step cfg st st' -> stopping st'.
Proof.
  intros Hst Hstep. revert Hst.
  destruct Hstep as [http telegram s _|telegram s _]; intros [Hflag Hpc].
  - split; [rewrite main_step_flag; exact Hflag|].
    rewrite main_step_pc, Hflag.
    destruct Hpc as [->| [->| ->]]; cbn; auto.
  - split; [reflexivity | exact Hpc].
Qed.

Lemma stopping_rtc (st st' : state) :
  stopping st -> rtc (step cfg) st st' -> stopping st'.
Proof.
  intros Hst Hrun. induction Hrun as [|x y z Hxy _ IH]; [exact Hst|].
  apply IH. eapply stopping_step; eauto.
Qed.

Lemma rtc_step_trace (st st' : state) (ev : event) :
  rtc (step cfg) st st' -> ev ∈ trace st -> ev ∈ trace st'.
Proof.
  intros Hrun. induction Hrun as [|x y z Hxy _ IH]; [auto|].
  intros Hin. apply IH. eapply step_trace; eauto.
Qed.

(** The flag is read at the test of the [while] and nowhere else. *)
Lemma main_next_flag (http : provider) (telegram : notifier) (ph : phase)
    (flag flag' : bool) :
  ph <> AtCheck ->
  main_next cfg http telegram ph flag = main_next cfg http telegram ph flag'.
Proof.
  intros Hph. destruct ph; try reflexivity. contradiction.
Qed.

(** C7.  When the handler runs while [main] sleeps between two cycles, the
    stop message is posted and the flag is set; the sleep goes on, the test of
    the [while] that follows ends the loop, and no cycle begins any more.  The
    handler never moves [main]: a cycle in progress keeps its place and its
    pending instruments, and no step of [main] other than the test of the
    [while] depends on the flag. *)
Theorem cancellation_while_sleeping (telegram : notifier) (st : state) :
  pc st = Sleeping ->
  Post Stopped ∈ trace (shutdown_handler telegram st) /\
  SHUTDOWN (shutdown_handler telegram st) = true /\
  pc (shutdown_handler telegram st) = Sleeping /\
  (forall http1 http2 tg1 tg2,
     pc (main_step cfg http1 tg1 (shutdown_handler telegram st)) = AtCheck /\
     pc (main_step cfg http2 tg2
           (main_step cfg http1 tg1 (shutdown_handler telegram st)))
       = Returned) /\
  (forall st', rtc (step cfg) (shutdown_handler telegram st) st' ->
     (forall pending, pc st' <> InCycle pending) /\
     Post Stopped ∈ trace st') /\
  (forall tg st0, pc (shutdown_handler tg st0) = pc st0) /\
  (forall http tg ph flag flag', ph <> AtCheck ->
     main_next cfg http tg ph flag = main_next cfg http tg ph flag').
Proof.
  intros Hpc.
  assert (Hposted : Post Stopped ∈ trace (shutdown_handler telegram st)).
  { cbn [trace shutdown_handler send_telegram].
    apply elem_of_app. right. apply elem_of_app. left.
    apply elem_of_cons. left. reflexivity. }
  assert (Hstop : stopping (shutdown_handler telegram st)).
  { split; [reflexivity|]. left. exact Hpc. }
  split; [exact Hposted|]. split; [reflexivity|]. split; [exact Hpc|].
  split; [|split; [|split]].
  - intros http1 http2 tg1 tg2.
    assert (H1 : pc (main_step cfg http1 tg1 (shutdown_handler telegram st))
                 = AtCheck).
    { rewrite main_step_pc. cbn [pc shutdown_handler]. rewrite Hpc.
      reflexivity. }
    split; [exact H1|].
    rewrite main_step_pc, H1, main_step_flag. reflexivity.
  - intros st' Hrun. split.
    + intros pending Hin.
      destruct (stopping_rtc _ _ Hstop Hrun) as [_ [H| [H| H]]];
        rewrite H in Hin; discriminate.
    + eapply rtc_step_trace; eauto.
  - reflexivity.
  - intros http tg ph flag flag'. apply main_next_flag.
Qed.

End Cancellation.

Lemma cancellation_while_sleeping_witness :
  pc asleep_state = Sleeping /\
  Post Stopped ∈ trace (shutdown_handler telegram_up asleep_state) /\
  SHUTDOWN (shutdown_handler telegram_up asleep_state) = true /\
  pc (shutdown_handler telegram_up asleep_state) = Sleeping /\
  (forall http1 http2 tg1 tg2,
     pc (main_step default_config http1 tg1
           (shutdown_handler telegram_up asleep_state)) = AtCheck /\
     pc (main_step default_config http2 tg2
           (main_step default_config http1 tg1
              (shutdown_handler telegram_up asleep_state)))
       = Returned) /\
  (forall st', rtc (step default_config)
                 (shutdown_handler telegram_up asleep_state) st' ->
     (forall pending, pc st' <> InCycle pending) /\
     Post Stopped ∈ trace st') /\
  (forall tg st0, pc (shutdown_handler tg st0) = pc st0) /\
  (forall http tg ph flag flag', ph <> AtCheck ->
     main_next default_config http tg ph flag
     = main_next default_config http tg ph flag').
Proof.
  split; [reflexivity|].
  apply (cancellation_while_sleeping default_config telegram_up asleep_state).
  reflexivity.
Defined.

(** A run with no signal from the start: the start message, the warm-up and
    the first cycle begin. *)
Example main_begins :
  Nat.iter 3 (main_step default_config rally_provider telegram_up) initial_state
  = {| pc := InCycle FIXED_SYMBOLS; SHUTDOWN := false;
       trace := [Post Started; Sleep 15] |}.
Proof. reflexivity. Qed.

(** ** Start-up *)

Section StartUp.

Lemma run_module_quiet (env : environ) (ns : gset string) (st : top_stmt)
    (rest : list top_stmt) :
  reads st = [] -> does st = NoEffect ->
  run_module env ns (st :: rest)
  = run_module env (list_to_set (binds st) ∪ ns) rest.
Proof.
  intros Hr Hd. cbn [run_module]. rewrite Hr, Hd. cbn [first_unbound List.find].
  destruct (run_module env _ rest). reflexivity.
Qed.

Lemma run_module_unbound (env : environ) (ns : gset string) (st : top_stmt)
    (rest : list top_stmt) (n : string) :
  first_unbound ns (reads st) = Some n ->
  run_module env ns (st :: rest) = ([], Raised (NameError n) (line st)).
Proof. intros H. cbn [run_module]. rewrite H. reflexivity. Qed.

Lemma first_unbound_one (ns : gset string) (n : string) :
  n ∉ ns -> n ∉ builtins -> first_unbound ns [n] = Some n.
Proof.
  intros Hns Hb. unfold first_unbound. cbn [List.find].
  rewrite (bool_decide_eq_false_2 _ Hns), (bool_decide_eq_false_2 _ Hb).
  reflexivity.
Qed.

Lemma load_dotenv_no_builtin : "load_dotenv"%string ∉ builtins.
Proof.
  apply (bool_decide_unpack _).
  vm_compute. exact I.
Qed.

(** C2.  Whatever the environment variables, and whatever names the module
    starts with as long as [load_dotenv] is not one of them, running the
    module raises [NameError] for [load_dotenv] at line 27: no statement after
    it is executed, so neither the configuration check, nor the installation
    of the handlers, nor the call of [main] is reached. *)
Theorem module_raises_name_error (env : environ) (ns : gset string) :
  "load_dotenv"%string ∉ ns ->
  run_module env ns main_py = ([], Raised (NameError "load_dotenv") 27).
Proof.
  intros Hns. unfold main_py.
  do 10 (rewrite run_module_quiet by reflexivity).
  apply run_module_unbound. cbn [reads stmt_expr stmt_import binds].
  apply first_unbound_one; [|exact load_dotenv_no_builtin].
  set_unfold. intuition discriminate.
Qed.

Lemma module_raises_name_error_witness :
  ("load_dotenv"%string ∉ module_names) /\
  run_module env_configured module_names main_py
  = ([], Raised (NameError "load_dotenv") 27).
Proof.
  assert (H : "load_dotenv"%string ∉ module_names).
  { apply (bool_decide_unpack _).
    vm_compute. exact I. }
  split; [exact H|].
  exact (module_raises_name_error env_configured module_names H).
Defined.

(** With [load_dotenv] imported and the two variables set, the same
    statements reach the call of [main]; with a variable missing they stop at
    the configuration check. *)
Example module_with_dotenv_runs :
  run_module env_configured module_names main_py_with_dotenv
  = ([ConfigCheck; InstallHandlers; CallMain], MainCalled).
Proof. vm_compute. reflexivity. Qed.

Example module_with_dotenv_unconfigured :
  run_module (fun _ => None) module_names main_py_with_dotenv
  = ([ConfigCheck], Exited 1).
Proof. vm_compute. reflexivity. Qed.

End StartUp.

(** ** The rally, checked against the crossover rule *)

Lemma triple_sma_cross_edge_witness :
  (length rally_frame < 3 -> triple_sma_cross rally_frame = Ok None) /\
  (3 <= length rally_frame ->
     (triple_sma_cross rally_frame = Ok (Some LONG) <->
        ordered_up rally_frame (length rally_frame - 1) = true /\
        ordered_up rally_frame (length rally_frame - 2) = false) /\
     (triple_sma_cross rally_frame = Ok (Some SHORT) <->
        ordered_down rally_frame (length rally_frame - 1) = true /\
        ordered_down rally_frame (length rally_frame - 2) = false) /\
     (triple_sma_cross rally_frame = Ok None <->
        ~ (ordered_up rally_frame (length rally_frame - 1) = true /\
           ordered_up rally_frame (length rally_frame - 2) = false) /\
        ~ (ordered_down rally_frame (length rally_frame - 1) = true /\
           ordered_down rally_frame (length rally_frame - 2) = false))).
Proof. exact (triple_sma_cross_edge rally_frame). Defined.

Example rally_crosses_long :
  triple_sma_cross rally_frame = Ok (Some LONG) /\
  ordered_up rally_frame 25 = true /\ ordered_up rally_frame 24 = false.
Proof. vm_compute. repeat split; reflexivity. Qed.

(** Two bars are too few for a decision. *)
Example two_bars_no_decision :
  triple_sma_cross [one_bar; one_bar] = Ok None.
Proof. reflexivity. Qed.

(** * Further properties of the indicators *)

Section MoreTrueRange.

Lemma Fin_of_feq (x : float64) (m : Q) :
  x =f= Fin m -> exists q, x = Fin q /\ (q == m)%Q.
Proof.
  destruct x as [| | |q]; cbn [feq]; try contradiction.
  intros H. exists q. split; [reflexivity | exact H].
Qed.

(** X1.  From the second bar on, a bar of numbers after a close that is a number
    has a true range that is a number, not negative, and at least each of
    the three terms, whatever the order of its high and its low. *)
Theorem true_range_after_first (df : DataFrame) (i : nat) (c c' : candle)
    (h l pc : Q) :
  df !! S i = Some c -> df !! i = Some c' ->
  high c = Fin h -> low c = Fin l -> close c' = Fin pc ->
  exists q, true_range df !! S i = Some (Fin q) /\
    (0 <= q)%Q /\ (h - l <= q)%Q /\
    (Qabs (h - pc) <= q)%Q /\ (Qabs (l - pc) <= q)%Q.
Proof.
  intros Hc Hc' Hh Hl Hpc.
  assert (Hi : S i < length df) by (eapply lookup_lt_Some; eauto).
  assert (Hs : shift (col close df) !! S i = Some (Fin pc)).
  { rewrite lookup_shift_S by (rewrite length_col; exact Hi).
    rewrite (lookup_col close df i c' Hc'), Hpc. reflexivity. }
  rewrite (lookup_true_range df (S i) c (Fin pc) Hc Hs), Hh, Hl.
  cbn [fsub fneg fadd fabs].
  destruct (Fin_of_feq _ _ (row_max_Fin3
              (Qred (h + Qred (- l)))
              (Qred (Qabs (Qred (h + Qred (- pc)))))
              (Qred (Qabs (Qred (l + Qred (- pc)))))))
    as (q & -> & Hq).
  exists q. split; [reflexivity|].
  rewrite !Qred_correct in Hq.
  pose proof (Q.le_max_l (h + - l) (Qmax (Qabs (h + - pc)) (Qabs (l + - pc))))
    as H1.
  pose proof (Q.le_max_r (h + - l) (Qmax (Qabs (h + - pc)) (Qabs (l + - pc))))
    as H2.
  pose proof (Q.le_max_l (Qabs (h + - pc)) (Qabs (l + - pc))) as H3.
  pose proof (Q.le_max_r (Qabs (h + - pc)) (Qabs (l + - pc))) as H4.
  pose proof (Qabs_nonneg (h + - pc)) as H5.
  rewrite <- Hq in H1, H2.
  unfold Qminus. repeat split; lra.
Qed.

Lemma true_range_after_first_witness :
  [one_bar; one_bar] !! 1 = Some one_bar /\
  [one_bar; one_bar] !! 0 = Some one_bar /\
  high one_bar = Fin 12 /\ low one_bar = Fin 9 /\ close one_bar = Fin 10 /\
  exists q, true_range [one_bar; one_bar] !! 1 = Some (Fin q) /\
    (0 <= q)%Q /\ (12 - 9 <= q)%Q /\
    (Qabs (12 - 10) <= q)%Q /\ (Qabs (9 - 10) <= q)%Q.
Proof.
  repeat (split; [reflexivity|]).
  apply (true_range_after_first [one_bar; one_bar] 0 one_bar one_bar 12 9 10);
    reflexivity.
Defined.

End MoreTrueRange.

Section MoreADX.

(** X5.  The two directional movements of [adx] are not below zero, and at no
    bar are both different from zero: [plus] keeps the rise of the high only
    where it is larger than the fall of the low, and [minus] the other way
    round. *)
Theorem directional_movements_exclusive (df : DataFrame) (i : nat)
    (p m : float64) :
  adx_plus df !! i = Some p -> adx_minus df !! i = Some m ->
  (p = Fin 0 \/ m = Fin 0) /\ not_below_zero p /\ not_below_zero m.
Proof.
  intros Hp Hm. split.
  - unfold adx_plus, adx_minus, where_ in Hp, Hm. cbn zeta in Hp, Hm.
    apply lookup_zip_with_Some in Hp as (u & cp & -> & Hu & Hcp).
    apply lookup_zip_with_Some in Hm as (d & cm & -> & Hd & Hcm).
    destruct cp; [|left; reflexivity]. destruct cm; [|right; reflexivity].
    exfalso. unfold gt_and_pos in Hcp, Hcm.
    apply lookup_zip_with_Some in Hcp as (u1 & d1 & Hc1 & Hu1 & Hd1).
    apply lookup_zip_with_Some in Hcm as (d2 & u2 & Hc2 & Hd2 & Hu2).
    rewrite Hu in Hu1, Hu2. rewrite Hd in Hd1, Hd2.
    injection Hu1 as <-. injection Hu2 as <-.
    injection Hd1 as <-. injection Hd2 as <-.
    symmetry in Hc1, Hc2.
    apply andb_true_iff in Hc1 as [Hc1 _].
    apply andb_true_iff in Hc2 as [Hc2 _].
    unfold fgt in Hc1, Hc2. rewrite (flt_asym _ _ Hc1) in Hc2. discriminate.
  - pose proof (where_gt_and_pos_not_below_zero
                  (diff (col high df)) (sneg (diff (col low df)))) as HP.
    pose proof (where_gt_and_pos_not_below_zero
                  (sneg (diff (col low df))) (diff (col high df))) as HM.
    rewrite Forall_lookup in HP, HM.
    split; [exact (HP i p Hp) | exact (HM i m Hm)].
Qed.

Lemma directional_movements_exclusive_witness :
  adx_plus rally_frame !! 25 = Some (Fin 3) /\
  adx_minus rally_frame !! 25 = Some (Fin 0) /\
  (Fin 3 = Fin 0 \/ Fin 0 = Fin 0) /\
  not_below_zero (Fin 3) /\ not_below_zero (Fin 0).
Proof.
  assert (Hp : adx_plus rally_frame !! 25 = Some (Fin 3)) by reflexivity.
  assert (Hm : adx_minus rally_frame !! 25 = Some (Fin 0)) by reflexivity.
  split; [exact Hp|]. split; [exact Hm|].
  exact (directional_movements_exclusive rally_frame 25 (Fin 3) (Fin 0) Hp Hm).
Defined.

(** *** A bound on sums *)

Lemma Qsum_le_bound (l : list Q) (b : Q) :
  Forall (fun q => (q <= b)%Q) l ->
  (Qsum l <= b * inject_Z (Z.of_nat (length l)))%Q.
Proof.
  induction 1 as [|x l Hx _ IH].
  - change (0 <= b * 0)%Q. lra.
  - rewrite Qsum_cons. cbn [length]. rewrite Nat2Z.inj_succ.
    unfold Z.succ. rewrite inject_Z_plus. change (inject_Z 1) with 1%Q. lra.
Qed.

End MoreADX.

Section MoreATR.

Lemma observations_all_fin (w : list float64) :
  Forall (fun x => is_fin x = true) w ->
  length (observations w) = length w.
Proof.
  induction 1 as [|x w Hx _ IH]; [reflexivity|].
  rewrite observations_cons. destruct x; try discriminate.
  cbn. rewrite IH. reflexivity.
Qed.

(** A rolling mean over numbers is a number once the window is full. *)
Lemma rolling_mean_numeric (p : nat) (s : Series) (i : nat) :
  Forall (fun x => is_fin x = true) s ->
  i < length s -> 1 <= p <= i + 1 ->
  exists q, rolling_at agg_mean p s i = Fin q.
Proof.
  intros Hs Hi Hp. unfold rolling_at. cbn zeta.
  pose proof (observations_all_fin _ (Forall_window _ p s i Hs)) as Hlen.
  rewrite length_window in Hlen by exact Hi.
  destruct (decide _) as [_|Hn]; [|lia].
  unfold agg_mean. destruct (observations (window p s i)); [cbn in Hlen; lia|].
  eexists. reflexivity.
Qed.

Lemma true_range_numeric (df : DataFrame) :
  all_numeric df -> Forall (fun x => is_fin x = true) (true_range df).
Proof.
  intros Hnum. apply Forall_lookup. intros i x Hx.
  assert (Hi : i < length df).
  { rewrite <- length_true_range. eapply lookup_lt_Some; eauto. }
  destruct (lookup_lt_is_Some_2 df i Hi) as [c Hc].
  unfold all_numeric in Hnum. rewrite Forall_lookup in Hnum.
  destruct (Hnum i c Hc) as (h & l & k & Hh & Hl & _).
  destruct i as [|j].
  - rewrite (lookup_true_range df 0 c NaN Hc) in Hx.
    + rewrite !fsub_nan_r, Hh, Hl in Hx. injection Hx as <-. reflexivity.
    + apply lookup_shift_0. rewrite length_col. exact Hi.
  - destruct (lookup_lt_is_Some_2 df j) as [c' Hc']; [lia|].
    destruct (Hnum j c' Hc') as (_ & _ & pc & _ & _ & Hpc).
    rewrite (lookup_true_range df (S j) c (Fin pc) Hc) in Hx.
    + rewrite Hh, Hl in Hx. cbn [fsub fneg fadd fabs] in Hx.
      destruct (Fin_of_feq _ _ (row_max_Fin3
                  (Qred (h + Qred (- l)))
                  (Qred (Qabs (Qred (h + Qred (- pc)))))
                  (Qred (Qabs (Qred (l + Qred (- pc)))))))
        as (q & Hq & _).
      rewrite Hq in Hx. injection Hx as <-. reflexivity.
    + rewrite lookup_shift_S by (rewrite length_col; exact Hi).
      rewrite (lookup_col close df j c' Hc'), Hpc. reflexivity.
Qed.

(** X2.  [atr(df, p)] on bars of numbers: missing before place [p - 1], a number
    from there on (the first window already counts the first bar, whose true
    range is [high - low]), and not negative when no bar has its high below
    its low. *)
Theorem atr_defined_from (df : DataFrame) (p i : nat) :
  all_numeric df -> 1 <= p -> i < length df ->
  exists x, atr df p !! i = Some x /\
    (i + 1 < p -> x = NaN) /\
    (p <= i + 1 ->
       exists q, x = Fin q /\ (high_not_below_low df -> (0 <= q)%Q)).
Proof.
  intros Hnum Hp Hi.
  assert (Hit : i < length (true_range df))
    by (rewrite length_true_range; exact Hi).
  exists (rolling_at agg_mean p (true_range df) i). split; [|split].
  - unfold atr, rolling_mean. apply lookup_rolling. exact Hit.
  - intros Hshort. unfold rolling_at. cbn zeta.
    pose proof (length_observations (window p (true_range df) i)) as Hle.
    rewrite length_window in Hle by exact Hit.
    destruct (decide _) as [Hge|]; [lia | reflexivity].
  - intros Hfull.
    destruct (rolling_mean_numeric p (true_range df) i
                (true_range_numeric df Hnum) Hit) as [q Hq]; [lia|].
    exists q. split; [exact Hq|]. intros Hwf.
    pose proof (rolling_mean_nonneg p (true_range df) i
                  (true_range_not_below_zero df Hwf)) as Hnn.
    rewrite Hq in Hnn. exact Hnn.
Qed.

Lemma all_numeric_rally : all_numeric rally_frame.
Proof. repeat constructor; do 3 eexists; repeat split; reflexivity. Qed.

Lemma atr_defined_from_witness :
  all_numeric rally_frame /\ 1 <= 14 /\ 13 < length rally_frame /\
  exists x, atr rally_frame 14 !! 13 = Some x /\
    (13 + 1 < 14 -> x = NaN) /\
    (14 <= 13 + 1 ->
       exists q, x = Fin q /\ (high_not_below_low rally_frame -> (0 <= q)%Q)).
Proof.
  split; [exact all_numeric_rally|]. split; [lia|].
  split; [cbn; lia|].
  apply (atr_defined_from rally_frame 14 13 all_numeric_rally); [lia | cbn; lia].
Defined.

End MoreATR.

Section MoreBollinger.

Lemma Qsqrt_nonneg (q : Q) : (0 <= Qsqrt q)%Q.
Proof.
  unfold Qsqrt. cbn zeta. rewrite Qred_correct.
  unfold Qle. cbn. pose proof (Z.sqrt_nonneg
    (Qnum (Qred q) * Z.pos (Qden (Qred q)) * (sqrt_scale * sqrt_scale))).
  lia.
Qed.

Lemma lookup_upper (c : Series) (i : nat) :
  i < length c ->
  (bollinger_bands c).1.1 !! i =
    Some (fadd (rolling_at agg_mean BOLLINGER_PERIOD c i)
               (fmul BOLLINGER_STD (rolling_at agg_std BOLLINGER_PERIOD c i))).
Proof.
  intros Hi. unfold bollinger_bands. cbn [fst snd].
  apply lookup_sadd; [|apply lookup_smul_l]; apply lookup_rolling; exact Hi.
Qed.

Lemma lookup_lower (c : Series) (i : nat) :
  i < length c ->
  (bollinger_bands c).1.2 !! i =
    Some (fsub (rolling_at agg_mean BOLLINGER_PERIOD c i)
               (fmul BOLLINGER_STD (rolling_at agg_std BOLLINGER_PERIOD c i))).
Proof.
  intros Hi. unfold bollinger_bands. cbn [fst snd].
  apply lookup_ssub; [|apply lookup_smul_l]; apply lookup_rolling; exact Hi.
Qed.

Lemma midline_early (c : Series) (i : nat) :
  i < length c -> i + 1 < BOLLINGER_PERIOD ->
  rolling_at agg_mean BOLLINGER_PERIOD c i = NaN.
Proof.
  intros Hi Hearly. unfold rolling_at. cbn zeta.
  pose proof (length_observations (window BOLLINGER_PERIOD c i)) as Hle.
  rewrite length_window in Hle by exact Hi.
  destruct (decide _) as [Hge|]; [lia | reflexivity].
Qed.

(** X3.  The bands at a place.  Either the window of eight closes is not full of
    numbers, and the midline, both bands and the width are missing there
    (so at the first seven places), or all are numbers with
    [lower <= midline <= upper] and the two bands equally far from the
    midline. *)
Theorem bollinger_bands_around_midline (c : Series) (i : nat) :
  i < length c ->
  ((midline c !! i = Some NaN /\
    (bollinger_bands c).1.1 !! i = Some NaN /\
    (bollinger_bands c).1.2 !! i = Some NaN /\
    (bollinger_bands c).2 !! i = Some NaN) \/
   (exists U L M : Q,
      midline c !! i = Some (Fin M) /\
      (bollinger_bands c).1.1 !! i = Some (Fin U) /\
      (bollinger_bands c).1.2 !! i = Some (Fin L) /\
      (L <= M)%Q /\ (M <= U)%Q /\ (U - M == M - L)%Q)) /\
  (i + 1 < BOLLINGER_PERIOD -> midline c !! i = Some NaN).
Proof.
  intros Hi.
  assert (Hmid : midline c !! i
                 = Some (rolling_at agg_mean BOLLINGER_PERIOD c i)).
  { unfold midline, rolling_mean. apply lookup_rolling. exact Hi. }
  split.
  - rewrite Hmid, lookup_upper, lookup_lower, lookup_width by exact Hi.
    destruct (midline_std_cases c i Hi)
      as [[Hma Hsd]|(o & _ & _ & Hma & Hsd)]; rewrite Hma, Hsd.
    + left. repeat split; reflexivity.
    + right. unfold BOLLINGER_STD, lit. cbn [fmul fadd fsub fneg].
      set (s := Qsqrt _). pose proof (Qsqrt_nonneg
        (Qssqdm o / inject_Z (Z.of_nat (length o - 1)))) as Hs. fold s in Hs.
      eexists _, _, _. repeat split; rewrite ?Qred_correct;
        change (Qred 2) with 2%Q; lra.
  - intros Hearly. rewrite Hmid, (midline_early c i Hi Hearly). reflexivity.
Qed.

Lemma bollinger_bands_around_midline_witness :
  25 < length (col close rally_frame) /\
  ((midline (col close rally_frame) !! 25 = Some NaN /\
    (bollinger_bands (col close rally_frame)).1.1 !! 25 = Some NaN /\
    (bollinger_bands (col close rally_frame)).1.2 !! 25 = Some NaN /\
    (bollinger_bands (col close rally_frame)).2 !! 25 = Some NaN) \/
   (exists U L M : Q,
      midline (col close rally_frame) !! 25 = Some (Fin M) /\
      (bollinger_bands (col close rally_frame)).1.1 !! 25 = Some (Fin U) /\
      (bollinger_bands (col close rally_frame)).1.2 !! 25 = Some (Fin L) /\
      (L <= M)%Q /\ (M <= U)%Q /\ (U - M == M - L)%Q)) /\
  (25 + 1 < BOLLINGER_PERIOD ->
   midline (col close rally_frame) !! 25 = Some NaN).
Proof.
  assert (H : 25 < length (col close rally_frame)) by (cbn; lia).
  split; [exact H|].
  exact (bollinger_bands_around_midline (col close rally_frame) 25 H).
Defined.

End MoreBollinger.

(** * Further properties of the signal logic *)

Section MoreSignal.

(** A rolling mean that is a number has a full window of numbers. *)
Lemma rolling_mean_Fin_window (p : nat) (s : Series) (i : nat) (q : Q) :
  i < length s -> 1 <= p -> rolling_at agg_mean p s i = Fin q ->
  p <= i + 1 /\
  forall j, i + 1 - p <= j <= i -> exists y, s !! j = Some (Fin y).
Proof.
  intros Hi Hp H. unfold rolling_at in H. cbn zeta in H.
  destruct (decide _) as [Hge|]; [|discriminate].
  pose proof (length_observations (window p s i)) as Hle.
  pose proof (length_window p s i Hi) as Hlen.
  assert (Hfull : length (observations (window p s i))
                  = length (window p s i)) by lia.
  split; [lia|]. intros j Hj.
  apply observations_full in Hfull.
  assert (Hk : window p s i !! (j - (S i - p)) = s !! j).
  { rewrite lookup_window by lia. f_equal. lia. }
  rewrite Hfull, list_lookup_fmap in Hk.
  destruct (observations (window p s i) !! (j - (S i - p))) as [y|] eqn:E.
  - exists y. rewrite <- Hk. reflexivity.
  - apply lookup_ge_None in E. lia.
Qed.

Lemma rolling_mean_no_inf (p : nat) (s : Series) (i : nat) :
  rolling_at agg_mean p s i = NaN \/ exists q, rolling_at agg_mean p s i = Fin q.
Proof.
  unfold rolling_at. cbn zeta. destruct (decide _); [|left; reflexivity].
  unfold agg_mean. destruct (observations _); [left | right; eexists];
    reflexivity.
Qed.

(** An ordering at a place needs the slow average there, so twenty closes
    that are numbers. *)
Lemma ordered_needs_slow (df : DataFrame) (i : nat) :
  ordered_up df i = true \/ ordered_down df i = true ->
  19 <= i /\ i < length df /\
  forall j, i - 19 <= j <= i -> exists y, col close df !! j = Some (Fin y).
Proof.
  intros Hord.
  assert (Hs : exists x, sma (col close df) 20 !! i = Some x /\ is_nan x = false).
  { unfold ordered_up, ordered_down in Hord.
    destruct (sma (col close df) 3 !! i) as [f|]; [|destruct Hord; discriminate].
    destruct (sma (col close df) 8 !! i) as [m|]; [|destruct Hord; discriminate].
    destruct (sma (col close df) 20 !! i) as [s|]; [|destruct Hord; discriminate].
    exists s. split; [reflexivity|].
    destruct s; try reflexivity. rewrite fgt_nan_r, flt_nan_r in Hord.
    rewrite !andb_false_r in Hord. destruct Hord; discriminate. }
  destruct Hs as (x & Hx & Hnn).
  unfold sma, rolling_mean in Hx.
  apply lookup_rolling_Some in Hx as [Hi ->].
  destruct (rolling_mean_no_inf 20 (col close df) i) as [Hn|[q Hq]];
    [rewrite Hn in Hnn; discriminate|].
  destruct (rolling_mean_Fin_window 20 (col close df) i q Hi) as [H20 Hall];
    [lia | exact Hq |].
  rewrite length_col in Hi. split; [lia|]. split; [exact Hi|].
  intros j Hj. apply Hall. lia.
Qed.

(** X7.  [triple_sma_cross] reports no crossover unless the frame has twenty
    bars and its last twenty closes are all numbers: the slow average is
    missing otherwise, and a comparison with a missing value is false. *)
Theorem triple_sma_cross_needs_20 (df : DataFrame) :
  (length df < 20 \/
   exists j y, length df - 20 <= j < length df /\
               col close df !! j = Some y /\ is_fin y = false) ->
  triple_sma_cross df = Ok None.
Proof.
  intros Hbad. apply triple_sma_cross_no_order.
  - destruct (ordered_up df (length df - 1)) eqn:E; [|reflexivity]. exfalso.
    destruct (ordered_needs_slow df (length df - 1) (or_introl E))
      as (H19 & Hlen & Hall).
    destruct Hbad as [Hshort|(j & y & Hj & Hy & Hfin)]; [lia|].
    destruct (Hall j) as [z Hz]; [lia|].
    rewrite Hy in Hz. injection Hz as ->. discriminate.
  - destruct (ordered_down df (length df - 1)) eqn:E; [|reflexivity]. exfalso.
    destruct (ordered_needs_slow df (length df - 1) (or_intror E))
      as (H19 & Hlen & Hall).
    destruct Hbad as [Hshort|(j & y & Hj & Hy & Hfin)]; [lia|].
    destruct (Hall j) as [z Hz]; [lia|].
    rewrite Hy in Hz. injection Hz as ->. discriminate.
Qed.

Lemma triple_sma_cross_needs_20_witness :
  (length (take 19 rally_frame) < 20 \/
   exists j y, length (take 19 rally_frame) - 20 <= j
               < length (take 19 rally_frame) /\
               col close (take 19 rally_frame) !! j = Some y /\
               is_fin y = false) /\
  triple_sma_cross (take 19 rally_frame) = Ok None.
Proof.
  assert (H : length (take 19 rally_frame) < 20) by (cbn; lia).
  split; [left; exact H|].
  apply (triple_sma_cross_needs_20 (take 19 rally_frame)). left. exact H.
Defined.

(** [analyze_symbol] on a frame with at least one bar returns. *)
Lemma analyze_frame_Ok (cfg : Config) (symbol : string) (df : DataFrame) :
  0 < length df ->
  exists w a price cross,
    (bollinger_bands (col close df)).2 !! (length df - 1) = Some w /\
    adx df !! (length df - 1) = Some a /\
    col close df !! (length df - 1) = Some price /\
    triple_sma_cross df = Ok cross /\
    analyze_frame cfg symbol df =
      Ok (if flt w (BOLLINGER_WIDTH_MIN_PCT cfg) then None
          else if flt a (ADX_MIN cfg) then None
          else match cross with
               | None => None
               | Some sd => Some {| sig_symbol := symbol; sig_side := sd;
                                    sig_price := price; sig_adx := a |}
               end).
Proof.
  intros Hlen. assert (Hi : length df - 1 < length df) by lia.
  destruct (lookup_lt_is_Some_2 ((bollinger_bands (col close df)).2)
              (length df - 1)) as [w Hw];
    [rewrite length_width, length_col; exact Hi|].
  destruct (lookup_lt_is_Some_2 (adx df) (length df - 1)) as [a Ha];
    [rewrite length_adx; exact Hi|].
  destruct (lookup_lt_is_Some_2 (col close df) (length df - 1)) as [p Hp];
    [rewrite length_col; exact Hi|].
  destruct (triple_sma_cross_Ok df) as [cross Hc].
  exists w, a, p, cross. repeat (split; [assumption|]).
  apply analyze_frame_eq; assumption.
Qed.

(** X8.  A signal that [analyze_symbol] returns is well formed: it names the
    instrument that was asked for, its price and its ADX value are numbers,
    the ADX value is not below the minimum, and the frame has at least
    twenty bars whose last twenty closes are numbers. *)
Theorem signal_well_formed (cfg : Config) (symbol : string) (df : DataFrame)
    (sig : Signal) :
  analyze_frame cfg symbol df = Ok (Some sig) ->
  sig_symbol sig = symbol /\
  is_fin (sig_price sig) = true /\
  is_fin (sig_adx sig) = true /\
  flt (sig_adx sig) (ADX_MIN cfg) = false /\
  col close df !! (length df - 1) = Some (sig_price sig) /\
  adx df !! (length df - 1) = Some (sig_adx sig) /\
  triple_sma_cross df = Ok (Some (sig_side sig)) /\
  20 <= length df /\
  (forall j, length df - 20 <= j < length df ->
     exists y, col close df !! j = Some (Fin y)).
Proof.
  intros H.
  destruct (decide (length df = 0)) as [Hz|Hnz].
  { destruct df; [|discriminate]. rewrite analyze_frame_empty in H.
    discriminate. }
  destruct (analyze_frame_Ok cfg symbol df) as (w & a & p & cross & Hw & Ha & Hp & Hc & Heq);
    [lia|].
  rewrite Heq in H.
  destruct (flt w _); [discriminate|].
  destruct (flt a (ADX_MIN cfg)) eqn:Ea; [discriminate|].
  destruct cross as [sd|]; [|discriminate].
  injection H as <-. cbn [sig_symbol sig_price sig_adx sig_side].
  assert (Hord : ordered_up df (length df - 1) = true \/
                 ordered_down df (length df - 1) = true).
  { destruct (decide (length df < 3)) as [Hlt|Hge].
    - rewrite (triple_sma_cross_short df Hlt) in Hc. discriminate.
    - rewrite triple_sma_cross_eq in Hc by lia.
      destruct (ordered_up df (length df - 1)); [left; reflexivity|].
      destruct (ordered_down df (length df - 1)); [right; reflexivity|].
      discriminate. }
  destruct (ordered_needs_slow df _ Hord) as (H19 & _ & Hall).
  assert (Hfa : is_fin a = true).
  { apply lookup_adx in Ha as [_ ->]. cbn zeta.
    destruct (rolling_mean_no_inf ADX_PERIOD (adx_dx df) (length df - 1))
      as [->|[q ->]]; reflexivity. }
  destruct (Hall (length df - 1)) as [y Hy]; [lia|].
  rewrite Hp in Hy. injection Hy as ->.
  repeat split; try assumption; try reflexivity; try lia.
  intros j Hj. apply Hall. lia.
Qed.

Lemma signal_well_formed_witness :
  analyze_frame default_config "BNBUSDT" rally_frame
    = Ok (Some (rally_signal "BNBUSDT")) /\
  sig_symbol (rally_signal "BNBUSDT") = "BNBUSDT"%string /\
  is_fin (sig_price (rally_signal "BNBUSDT")) = true /\
  is_fin (sig_adx (rally_signal "BNBUSDT")) = true /\
  flt (sig_adx (rally_signal "BNBUSDT")) (ADX_MIN default_config) = false /\
  col close rally_frame !! (length rally_frame - 1)
    = Some (sig_price (rally_signal "BNBUSDT")) /\
  adx rally_frame !! (length rally_frame - 1)
    = Some (sig_adx (rally_signal "BNBUSDT")) /\
  triple_sma_cross rally_frame = Ok (Some (sig_side (rally_signal "BNBUSDT"))) /\
  20 <= length rally_frame /\
  (forall j, length rally_frame - 20 <= j < length rally_frame ->
     exists y, col close rally_frame !! j = Some (Fin y)).
Proof.
  assert (H : analyze_frame default_config "BNBUSDT" rally_frame
              = Ok (Some (rally_signal "BNBUSDT")))
    by (vm_compute; reflexivity).
  split; [exact H|].
  exact (signal_well_formed default_config "BNBUSDT" rally_frame _ H).
Defined.

Lemma iloc_to_last_short (rows : DataFrame) :
  length rows <= 1 -> iloc_to_last rows = [].
Proof.
  intros H. unfold iloc_to_last.
  replace (length rows - 1) with 0 by lia. reflexivity.
Qed.

Lemma length_iloc_to_last (rows : DataFrame) :
  length (iloc_to_last rows) = length rows - 1.
Proof. unfold iloc_to_last. rewrite length_take. lia. Qed.



(** X9.  [analyze_symbol] on a table whose open times pandas accepts.  With
    at most one row nothing is left once the open bar is dropped, and
    reading the last value raises [IndexError]; with two rows or more it
    returns, with a signal or with [None], and raises nothing. *)
Theorem analyze_symbol_on_table (cfg : Config) (http : provider)
    (symbol : string) (rows : list candle) :
  http symbol "15m"%string 200 = Table rows ->
  open_times_accepted rows ->
  (length rows <= 1 -> analyze_symbol cfg http symbol = Raise IndexError) /\
  (2 <= length rows -> exists r, analyze_symbol cfg http symbol = Ok r).
Proof.
  intros Hr _. unfold analyze_symbol, fetch_klines. rewrite Hr.
  cbn [mbind result_bind]. split.
  - intros Hshort.
    rewrite (iloc_to_last_short rows Hshort). apply analyze_frame_empty.
  - intros Hlong.
    destruct (analyze_frame_Ok cfg symbol (iloc_to_last rows))
      as (w & a & p & cross & _ & _ & _ & _ & ->);
      [rewrite length_iloc_to_last; lia|].
    eexists. reflexivity.
Qed.


Lemma analyze_symbol_on_table_witness :
  rally_provider "BNBUSDT"%string "15m"%string 200
    = Table (rally_frame ++ [open_bar]) /\
  open_times_accepted (rally_frame ++ [open_bar]) /\
  (length (rally_frame ++ [open_bar]) <= 1 ->
   analyze_symbol default_config rally_provider "BNBUSDT" = Raise IndexError) /\
  (2 <= length (rally_frame ++ [open_bar]) ->
   exists r, analyze_symbol default_config rally_provider "BNBUSDT" = Ok r).
Proof.
  assert (Ht : open_times_accepted (rally_frame ++ [open_bar])).
  { unfold open_times_accepted. apply Forall_forall. intros c Hc.
    vm_compute in Hc. set_unfold in Hc.
    repeat (destruct Hc as [->|Hc]; [vm_compute; split; discriminate|]).
    destruct Hc. }
  split; [reflexivity|]. split; [exact Ht|].
  apply (analyze_symbol_on_table default_config rally_provider "BNBUSDT");
    [reflexivity | exact Ht].
Defined.

(** A provider that answers with a table without rows raises
    [IndexError]. *)
Example analyze_symbol_empty_table :
  analyze_symbol default_config (fun _ _ _ => Table []) "BNBUSDT"
  = Raise IndexError.
Proof. reflexivity. Qed.

(** X10.  What [analyze_symbol] depends on: the two thresholds of the
    configuration and the answer of the provider to one request, for the
    interval "15m" and with the limit 200.  [KLINES_LIMIT], [POLL_SECONDS]
    and [ADX_ACCEL_THRESHOLD] have no part in it. *)
Theorem analyze_symbol_depends_on (cfg cfg' : Config) (http http' : provider)
    (symbol : string) :
  BOLLINGER_WIDTH_MIN_PCT cfg = BOLLINGER_WIDTH_MIN_PCT cfg' ->
  ADX_MIN cfg = ADX_MIN cfg' ->
  http symbol "15m"%string 200 = http' symbol "15m"%string 200 ->
  analyze_symbol cfg http symbol = analyze_symbol cfg' http' symbol.
Proof.
  intros Hw Ha Hr. unfold analyze_symbol, fetch_klines. rewrite Hr.
  destruct (http' symbol "15m"%string 200); try reflexivity.
  cbn [mbind result_bind]. unfold analyze_frame. rewrite Hw, Ha. reflexivity.
Qed.

End MoreSignal.

Lemma analyze_symbol_depends_on_witness :
  BOLLINGER_WIDTH_MIN_PCT default_config = BOLLINGER_WIDTH_MIN_PCT other_config /\
  ADX_MIN default_config = ADX_MIN other_config /\
  rally_provider "BNBUSDT"%string "15m"%string 200
    = only_200_provider "BNBUSDT"%string "15m"%string 200 /\
  analyze_symbol default_config rally_provider "BNBUSDT"
    = analyze_symbol other_config only_200_provider "BNBUSDT".
Proof.
  repeat (split; [reflexivity|]).
  apply (analyze_symbol_depends_on default_config other_config
           rally_provider only_200_provider "BNBUSDT"); reflexivity.
Defined.

(** * Further properties of the loop *)

Section MoreLoop.

Context (cfg : Config).

(** *** Without a signal [main] does not return *)

Lemma main_next_running (http : provider) (telegram : notifier) (ph : phase) :
  ph <> Returned -> (main_next cfg http telegram ph false).1 <> Returned.
Proof.
  intros Hph. destruct ph as [| | |pending| |]; cbn; try discriminate.
  - destruct pending as [|s rest]; [discriminate|].
    destruct (analyze_symbol cfg http s); discriminate.
  - contradiction.
Qed.

(** X11.  As long as no signal is delivered the flag stays unset and [main] never
    returns, whatever the provider and the notifier answer: a failed request,
    a failed computation or a failed POST does not end the loop. *)
Theorem main_runs_until_signal (st st' : state) :
  SHUTDOWN st = false -> pc st <> Returned ->
  rtc (main_only cfg) st st' ->
  SHUTDOWN st' = false /\ pc st' <> Returned.
Proof.
  intros Hflag Hpc Hrun. induction Hrun as [|x y z Hxy _ IH];
    [split; assumption|].
  destruct Hxy as (http & telegram & ->). apply IH.
  - rewrite main_step_flag. exact Hflag.
  - rewrite main_step_pc, Hflag. apply main_next_running. exact Hpc.
Qed.

(** *** With the flag set [main] returns *)

Lemma main_next_stopping (http : provider) (telegram : notifier) (ph : phase) :
  steps_left (main_next cfg http telegram ph true).1 <= steps_left ph - 1.
Proof.
  destruct ph as [| | |pending| |]; cbn; try lia.
  destruct pending as [|s rest]; [cbn; lia|].
  destruct (analyze_symbol cfg http s); cbn; lia.
Qed.

(** X12.  Once the flag is set, [main] returns after the instruments still pending
    in the current cycle and three more steps at most (the end of the loop,
    the sleep and the test of the [while]), whatever the provider and the
    notifier answer. *)
Theorem main_returns_after_signal (n : nat) (st st' : state) :
  SHUTDOWN st = true -> steps_left (pc st) <= n ->
  nsteps (main_only cfg) n st st' -> pc st' = Returned.
Proof.
  intros Hflag Hn Hrun. revert Hflag Hn.
  induction Hrun as [x|n x y z Hxy _ IH]; intros Hflag Hn.
  - destruct (pc x) as [| | |pending| |]; cbn in Hn; try lia. reflexivity.
  - destruct Hxy as (http & telegram & ->). apply IH.
    + rewrite main_step_flag. exact Hflag.
    + rewrite main_step_pc, Hflag.
      pose proof (main_next_stopping http telegram (pc x)). lia.
Qed.

End MoreLoop.

Lemma main_runs_until_signal_witness :
  SHUTDOWN initial_state = false /\ pc initial_state <> Returned /\
  rtc (main_only default_config) initial_state
      (Nat.iter 3 (main_step default_config first_fails_provider telegram_down)
                initial_state) /\
  SHUTDOWN (Nat.iter 3 (main_step default_config first_fails_provider
                          telegram_down) initial_state) = false /\
  pc (Nat.iter 3 (main_step default_config first_fails_provider telegram_down)
               initial_state) <> Returned.
Proof.
  assert (Hrun : rtc (main_only default_config) initial_state
             (Nat.iter 3 (main_step default_config first_fails_provider
                            telegram_down) initial_state)).
  { cbn [Nat.iter].
    eapply rtc_l; [exists first_fails_provider, telegram_down; reflexivity|].
    eapply rtc_l; [exists first_fails_provider, telegram_down; reflexivity|].
    eapply rtc_l; [exists first_fails_provider, telegram_down; reflexivity|].
    apply rtc_refl. }
  split; [reflexivity|]. split; [discriminate|]. split; [exact Hrun|].
  apply (main_runs_until_signal default_config initial_state _ eq_refl);
    [discriminate | exact Hrun].
Defined.

Lemma main_returns_after_signal_witness :
  SHUTDOWN (shutdown_handler telegram_up mid_cycle_state) = true /\
  steps_left (pc (shutdown_handler telegram_up mid_cycle_state)) <= 6 /\
  nsteps (main_only default_config) 6
    (shutdown_handler telegram_up mid_cycle_state)
    (Nat.iter 6 (main_step default_config rally_provider telegram_up)
       (shutdown_handler telegram_up mid_cycle_state)) /\
  pc (Nat.iter 6 (main_step default_config rally_provider telegram_up)
        (shutdown_handler telegram_up mid_cycle_state)) = Returned.
Proof.
  assert (Hrun : nsteps (main_only default_config) 6
            (shutdown_handler telegram_up mid_cycle_state)
            (Nat.iter 6 (main_step default_config rally_provider telegram_up)
               (shutdown_handler telegram_up mid_cycle_state))).
  { rewrite !Nat.iter_succ_r. cbn [Nat.iter].
    do 6 (eapply nsteps_l;
          [exists rally_provider, telegram_up; reflexivity|]).
    apply nsteps_O. }
  split; [reflexivity|]. split; [cbn; lia|]. split; [exact Hrun|].
  apply (main_returns_after_signal default_config 6
           (shutdown_handler telegram_up mid_cycle_state) _ eq_refl);
    [cbn; lia | exact Hrun].
Defined.

Section MoreLoopTraces.

Context (cfg : Config).

(** X13.  Along every run of the process, signals included, the flag once set is
    never unset, and the trace only grows. *)
Theorem flag_and_trace_monotone (st st' : state) :
  rtc (step cfg) st st' ->
  (SHUTDOWN st = true -> SHUTDOWN st' = true) /\
  trace st `prefix_of` trace st'.
Proof.
  intros Hrun. induction Hrun as [x|x y z Hxy _ [IHf IHt]].
  - split; [auto | reflexivity].
  - assert (Hstep : (SHUTDOWN x = true -> SHUTDOWN y = true) /\
                    trace x `prefix_of` trace y).
    { destruct Hxy as [http telegram s _|telegram s _].
      - rewrite main_step_flag, main_step_trace.
        split; [auto | apply prefix_app_r; reflexivity].
      - cbn [SHUTDOWN trace shutdown_handler].
        split; [reflexivity | apply prefix_app_r; reflexivity]. }
    destruct Hstep as [Hf Ht]. split; [auto|]. etransitivity; eauto.
Qed.

(** *** The notifier and the cycle *)

Context (http : provider).

Lemma without_send_failures_app (a b : list event) :
  without_send_failures (a ++ b)
  = without_send_failures a ++ without_send_failures b.
Proof. unfold without_send_failures. apply List.filter_app. Qed.

Lemma on_result_without_send_failures (telegram : notifier)
    (res : option Signal) :
  without_send_failures (on_result telegram res)
  = match res with
    | Some sig => [Post (Alert sig); Log (AlertSent (sig_symbol sig))]
    | None => []
    end.
Proof.
  destruct res as [sig|]; [|reflexivity].
  unfold on_result, send_telegram. destruct (telegram (Alert sig)); reflexivity.
Qed.

Lemma for_symbols_notifier (tg1 tg2 : notifier) (symbols : list string) :
  (for_symbols cfg http tg1 symbols).2 = (for_symbols cfg http tg2 symbols).2 /\
  without_send_failures (for_symbols cfg http tg1 symbols).1
  = without_send_failures (for_symbols cfg http tg2 symbols).1.
Proof.
  induction symbols as [|s rest [IH1 IH2]]; [split; reflexivity|].
  destruct (analyze_symbol cfg http s) as [res|e] eqn:Hs.
  - rewrite !(for_symbols_cons_ok cfg http _ s rest res Hs). cbn [fst snd].
    split; [exact IH1|].
    rewrite !without_send_failures_app, !on_result_without_send_failures, IH2.
    reflexivity.
  - rewrite !(for_symbols_cons_raise cfg http _ s rest e Hs).
    split; reflexivity.
Qed.

(** X14.  Whether the POSTs succeed changes nothing in a cycle but the log lines
    of the failed POSTs: the same instruments are analysed, the same alerts
    are posted in the same order, each is logged as sent, and the same
    failure, if any, ends the cycle. *)
Theorem cycle_ignores_notifier (tg1 tg2 : notifier) (symbols : list string) :
  without_send_failures (try_block cfg http tg1 symbols)
  = without_send_failures (try_block cfg http tg2 symbols) /\
  posts (try_block cfg http tg1 symbols) = posts (try_block cfg http tg2 symbols).
Proof.
  assert (Hw : without_send_failures (try_block cfg http tg1 symbols)
               = without_send_failures (try_block cfg http tg2 symbols)).
  { rewrite !try_block_eq, !without_send_failures_app.
    destruct (for_symbols_notifier tg1 tg2 symbols) as [-> ->]. reflexivity. }
  split; [exact Hw|].
  assert (Hposts : forall evs, posts (without_send_failures evs) = posts evs).
  { induction evs as [|ev evs IH]; [reflexivity|].
    unfold without_send_failures, posts in *. cbn [List.filter].
    destruct ev as [m|[]|n]; cbn; rewrite ?IH; reflexivity. }
  rewrite <- (Hposts (try_block cfg http tg1 symbols)), Hw. apply Hposts.
Qed.

Lemma posts_app (a b : list event) : posts (a ++ b) = posts a ++ posts b.
Proof. unfold posts. apply omap_app. Qed.

Lemma posts_on_result (telegram : notifier) (res : option Signal) :
  posts (on_result telegram res)
  = match res with Some sig => [Alert sig] | None => [] end.
Proof.
  destruct res as [sig|]; [|reflexivity].
  unfold on_result, send_telegram. destruct (telegram (Alert sig)); reflexivity.
Qed.

(** X15.  A cycle in which no instrument fails posts exactly the alerts of the
    instruments that have a signal, once each and in the order of the list,
    and logs no failure of the cycle. *)
Theorem cycle_posts_every_signal (telegram : notifier) (symbols : list string) :
  Forall (fun s => exists r, analyze_symbol cfg http s = Ok r) symbols ->
  posts (try_block cfg http telegram symbols) = omap (alert_of cfg http) symbols /\
  (for_symbols cfg http telegram symbols).2 = None.
Proof.
  intros Hok. rewrite try_block_eq.
  induction Hok as [|s rest [r Hr] _ [IH1 IH2]]; [split; reflexivity|].
  rewrite (for_symbols_cons_ok cfg http telegram s rest r Hr). cbn [fst snd].
  split; [|exact IH2].
  rewrite IH2 in *. rewrite app_nil_r in *.
  rewrite posts_app, posts_on_result, IH1.
  unfold alert_of at 2. cbn [omap list_omap]. unfold alert_of at 1.
  rewrite Hr. destruct r; reflexivity.
Qed.

(** X16.  A signal delivered in the middle of a cycle: the stop message is posted
    at once, the instruments still pending are analysed as they would have
    been and their alerts posted after the stop message, then [main] comes to
    the sleep with the flag set. *)
Theorem signal_in_cycle_finishes_cycle (telegram tg0 : notifier)
    (pending : list string) (st : state) :
  pc st = InCycle pending ->
  exists n, n <= length pending + 1 /\
    Nat.iter n (main_step cfg http telegram) (shutdown_handler tg0 st) =
      {| pc := Sleeping; SHUTDOWN := true;
         trace := (trace st ++ send_telegram tg0 Stopped
                            ++ [Log ShutdownRequested])
                  ++ try_block cfg http telegram pending |}.
Proof.
  intros Hpc.
  destruct (main_steps_try_block cfg http telegram pending
              (shutdown_handler tg0 st) Hpc) as (n & Hn & Hrun).
  exists n. split; [exact Hn | exact Hrun].
Qed.

End MoreLoopTraces.

Lemma flag_and_trace_monotone_witness :
  rtc (step default_config) asleep_state
      (main_step default_config rally_provider telegram_up
         (shutdown_handler telegram_up asleep_state)) /\
  (SHUTDOWN asleep_state = true ->
   SHUTDOWN (main_step default_config rally_provider telegram_up
               (shutdown_handler telegram_up asleep_state)) = true) /\
  trace asleep_state `prefix_of`
    trace (main_step default_config rally_provider telegram_up
             (shutdown_handler telegram_up asleep_state)).
Proof.
  assert (Hrun : rtc (step default_config) asleep_state
            (main_step default_config rally_provider telegram_up
               (shutdown_handler telegram_up asleep_state))).
  { eapply rtc_l; [apply (step_signal default_config telegram_up); discriminate|].
    eapply rtc_l; [apply (step_main default_config rally_provider telegram_up);
                   discriminate|].
    apply rtc_refl. }
  split; [exact Hrun|].
  exact (flag_and_trace_monotone default_config _ _ Hrun).
Defined.

Lemma cycle_posts_every_signal_witness :
  Forall (fun s => exists r,
            analyze_symbol default_config rally_provider s = Ok r)
         ["BCHUSDT"%string; "BNBUSDT"%string] /\
  posts (try_block default_config rally_provider telegram_down
           ["BCHUSDT"%string; "BNBUSDT"%string])
  = omap (alert_of default_config rally_provider)
         ["BCHUSDT"%string; "BNBUSDT"%string] /\
  (for_symbols default_config rally_provider telegram_down
     ["BCHUSDT"%string; "BNBUSDT"%string]).2 = None.
Proof.
  assert (Hok : Forall (fun s => exists r,
                   analyze_symbol default_config rally_provider s = Ok r)
                ["BCHUSDT"%string; "BNBUSDT"%string]).
  { repeat constructor; eexists; vm_compute; reflexivity. }
  split; [exact Hok|].
  exact (cycle_posts_every_signal default_config rally_provider telegram_down
           _ Hok).
Defined.

Lemma signal_in_cycle_finishes_cycle_witness :
  pc mid_cycle_state = InCycle ["UNIUSDT"; "XMRUSDT"; "XRPUSDT"]%string /\
  exists n, n <= length ["UNIUSDT"; "XMRUSDT"; "XRPUSDT"]%string + 1 /\
    Nat.iter n (main_step default_config rally_provider telegram_up)
      (shutdown_handler telegram_up mid_cycle_state) =
      {| pc := Sleeping; SHUTDOWN := true;
         trace := (trace mid_cycle_state ++ send_telegram telegram_up Stopped
                     ++ [Log ShutdownRequested])
                  ++ try_block default_config rally_provider telegram_up
                       ["UNIUSDT"; "XMRUSDT"; "XRPUSDT"]%string |}.
Proof.
  split; [reflexivity|].
  apply (signal_in_cycle_finishes_cycle default_config rally_provider
           telegram_up telegram_up _ mid_cycle_state).
  reflexivity.
Defined.

(** * A further property of the moving average *)

Section MoreSMA.

Lemma Qsum_ge_bound (l : list Q) (a : Q) :
  Forall (fun q => (a <= q)%Q) l ->
  (a * inject_Z (Z.of_nat (length l)) <= Qsum l)%Q.
Proof.
  induction 1 as [|x l Hx _ IH].
  - change (a * 0 <= 0)%Q. lra.
  - rewrite Qsum_cons. cbn [length]. rewrite Nat2Z.inj_succ.
    unfold Z.succ. rewrite inject_Z_plus. change (inject_Z 1) with 1%Q. lra.
Qed.

Lemma Qmean_within (l : list Q) (a b : Q) :
  l <> [] -> Forall (fun q => (a <= q)%Q /\ (q <= b)%Q) l ->
  (a <= Qmean l)%Q /\ (Qmean l <= b)%Q.
Proof.
  intros Hne H.
  assert (Hn : (0 < inject_Z (Z.of_nat (length l)))%Q).
  { destruct l; [congruence|]. unfold Qlt. cbn. lia. }
  assert (Ha : Forall (fun q => (a <= q)%Q) l)
    by (eapply Forall_impl; [exact H|]; intros q [Hq _]; exact Hq).
  assert (Hb : Forall (fun q => (q <= b)%Q) l)
    by (eapply Forall_impl; [exact H|]; intros q [_ Hq]; exact Hq).
  pose proof (Qsum_ge_bound l a Ha). pose proof (Qsum_le_bound l b Hb).
  unfold Qmean. split.
  - apply Qle_shift_div_l; assumption.
  - apply Qle_shift_div_r; assumption.
Qed.

(** X17.  A moving average that is a number lies between the smallest and the
    largest of the [p] values it averages. *)
Theorem sma_within_bounds (s : Series) (p i : nat) (q a b : Q) :
  sma s p !! i = Some (Fin q) ->
  (forall j y, i + 1 - p <= j <= i -> s !! j = Some (Fin y) ->
               (a <= y)%Q /\ (y <= b)%Q) ->
  (a <= q)%Q /\ (q <= b)%Q.
Proof.
  intros Hq Hbounds. unfold sma, rolling_mean in Hq.
  apply lookup_rolling_Some in Hq as [Hi Hq].
  unfold rolling_at in Hq. cbn zeta in Hq.
  destruct (decide _) as [Hge|]; [|discriminate].
  pose proof (length_observations (window p s i)) as Hle.
  pose proof (length_window p s i Hi) as Hlen.
  assert (Hfull : window p s i = Fin <$> observations (window p s i))
    by (apply observations_full; lia).
  assert (Hall : Forall (fun y => (a <= y)%Q /\ (y <= b)%Q)
                        (observations (window p s i))).
  { apply Forall_lookup. intros k y Hk.
    assert (Hkl : k < length (observations (window p s i)))
      by (eapply lookup_lt_Some; eauto).
    apply (Hbounds (S i - p + k) y); [lia|].
    rewrite <- lookup_window by lia.
    rewrite Hfull, list_lookup_fmap, Hk. reflexivity. }
  unfold agg_mean in Hq.
  destruct (observations (window p s i)) as [|x l] eqn:E; [discriminate|].
  injection Hq as ->. rewrite Qred_correct.
  apply Qmean_within; [discriminate | exact Hall].
Qed.

Lemma sma_within_bounds_witness :
  sma [Fin 5; Fin 1; Fin 2; Fin 3] 3 !! 3 = Some (Fin 2) /\
  (forall j y, 3 + 1 - 3 <= j <= 3 ->
     [Fin 5; Fin 1; Fin 2; Fin 3] !! j = Some (Fin y) ->
     (1 <= y)%Q /\ (y <= 3)%Q) /\
  (1 <= 2)%Q /\ (2 <= 3)%Q.
Proof.
  assert (H1 : sma [Fin 5; Fin 1; Fin 2; Fin 3] 3 !! 3 = Some (Fin 2))
    by reflexivity.
  assert (H2 : forall j y, 3 + 1 - 3 <= j <= 3 ->
             [Fin 5; Fin 1; Fin 2; Fin 3] !! j = Some (Fin y) ->
             (1 <= y)%Q /\ (y <= 3)%Q).
  { intros j y Hj Hy.
    destruct j as [|[|[|[|j]]]]; cbn in Hy; try lia;
      injection Hy as <-; split; lra. }
  split; [exact H1|]. split; [exact H2|].
  exact (sma_within_bounds [Fin 5; Fin 1; Fin 2; Fin 3] 3 3 2 1 3 H1 H2).
Defined.

End MoreSMA.
